(** * WebDAV synchronisation of the prompt store

    A shallow embedding of the sync engine of the options page component
    [WebDAVIntegration]: the connectivity test, the push handler
    [handleSyncToWebDAV], the pull handler [syncFromWebDAV] with its two
    merge modes, [showMessage] and the status poller; and of its settings
    form: [loadSettings], [handleSubmit], the auto-sync switch,
    [clearTemporaryMessages], the callbacks of its timers and its cleanup.

    Values that travel through storage and over the wire are JSON values.
    Handlers are programs over an effect signature (storage, fetch, clock,
    component state, timers); every [await] of the source is an effect
    boundary, so a handler can be run to completion or suspended half way. *)

From Stdlib Require Import ZArith Ascii String.
From stdpp Require Import base option list strings pretty gmap.

Open Scope string_scope.
Set Warnings "-register-all".

(** ** JSON values *)

(** Objects keep their fields as an association list in insertion order;
    numbers are the integral ones. *)
Inductive json : Type :=
| JNull
| JBool (b : bool)
| JNum (n : Z)
| JStr (s : string)
| JArr (items : list json)
| JObj (fields : list (string * json)).

(** What a [catch] clause can receive: each carries a [message]. *)
Inductive js_error : Type :=
| Error (msg : string)
| TypeError (msg : string)
| SyntaxError (msg : string).

Definition message (e : js_error) : string :=
  match e with Error m | TypeError m | SyntaxError m => m end.

(** A JavaScript value read from a property or a storage result is a JSON
    value or [undefined], written [None]. *)
Definition jsval : Type := option json.

(** ToBoolean. Arrays and objects are truthy, also when empty. *)
Definition truthy (v : jsval) : bool :=
  match v with
  | None | Some JNull => false
  | Some (JBool b) => b
  | Some (JNum n) => negb (n =? 0)%Z
  | Some (JStr s) => negb (String.eqb s "")
  | Some (JArr _) | Some (JObj _) => true
  end.

(** [v || d] *)
Definition js_or (v : jsval) (d : json) : json :=
  match v with
  | Some x => if truthy v then x else d
  | None => d
  end.

(** [!s] on a string is [s === ""]. *)
Definition str_truthy (s : string) : bool := negb (String.eqb s "").

(** [s || d] on strings. *)
Definition str_or (s d : string) : string := if str_truthy s then s else d.

Definition isArray (v : jsval) : bool :=
  match v with Some (JArr _) => true | _ => false end.

Fixpoint assoc (k : string) (fields : list (string * json)) : jsval :=
  match fields with
  | [] => None
  | (k', v) :: rest => if String.eqb k k' then Some v else assoc k rest
  end.

(** [v.k] for the property names the component reads ([prompts],
    [categories], [id], [status]): own fields of an object, [undefined] on
    every other value, a TypeError on [null]. *)
Definition prop (v : json) (k : string) : js_error + jsval :=
  match v with
  | JNull => inl (TypeError ("Cannot read properties of null (reading '" +:+ k +:+ "')"))
  | JObj fields => inr (assoc k fields)
  | _ => inr None
  end.

(** SameValueZero, the equality of [Set.prototype.has]. Primitives compare
    by value. Arrays and objects compare by reference: the two sides always
    come from two different deserialisations (the local store and the
    downloaded body), so they never share a reference. *)
Definition same_value_zero (a b : jsval) : bool :=
  match a, b with
  | None, None => true
  | Some JNull, Some JNull => true
  | Some (JBool x), Some (JBool y) => Bool.eqb x y
  | Some (JNum x), Some (JNum y) => (x =? y)%Z
  | Some (JStr x), Some (JStr y) => String.eqb x y
  | _, _ => false
  end.

(** [v === s] for a string [s]. *)
Definition strict_eq_str (v : jsval) (s : string) : bool :=
  match v with Some (JStr x) => String.eqb x s | _ => false end.

(** ** Errors inside pure array callbacks *)

Definition ebind {A B} (m : js_error + A) (f : A → js_error + B) : js_error + B :=
  match m with inl e => inl e | inr a => f a end.

Notation "x ←! m ; k" := (ebind m (fun x => k))
  (at level 100, m at next level, right associativity, only parsing).

Fixpoint emap {A B} (f : A → js_error + B) (l : list A) : js_error + list B :=
  match l with
  | [] => inr []
  | x :: rest => y ←! f x; ys ←! emap f rest; inr (y :: ys)
  end.

Fixpoint efilter {A} (f : A → js_error + bool) (l : list A) : js_error + list A :=
  match l with
  | [] => inr []
  | x :: rest => b ←! f x; ys ←! efilter f rest; inr (if b then x :: ys else ys)
  end.

(** [new Set(coll.map(p => p.id))]; [name] is the variable's name, for the
    TypeError raised when [coll] has no [map] method. *)
Definition id_set (name : string) (coll : json) : js_error + list jsval :=
  match coll with
  | JArr items => emap (fun p => prop p "id") items
  | _ => inl (TypeError (name +:+ ".map is not a function"))
  end.

Definition set_has (ids : list jsval) (x : jsval) : bool :=
  existsb (same_value_zero x) ids.

(** [coll.filter(p => !ids.has(p.id))] *)
Definition filter_new (name : string) (ids : list jsval) (coll : jsval)
  : js_error + list json :=
  match coll with
  | Some (JArr items) =>
      efilter (fun p => i ←! prop p "id"; inr (negb (set_has ids i))) items
  | Some JNull => inl (TypeError "Cannot read properties of null (reading 'filter')")
  | None => inl (TypeError "Cannot read properties of undefined (reading 'filter')")
  | Some _ => inl (TypeError (name +:+ ".filter is not a function"))
  end.

(** [[...local, ...fresh]]; [local] went through [map] before, so it is an
    array whenever this is reached. *)
Definition spread2 (name : string) (local : json) (fresh : list json) : js_error + json :=
  match local with
  | JArr items => inr (JArr (items ++ fresh))
  | _ => inl (TypeError (name +:+ " is not iterable"))
  end.

(** The three lines that merge one collection in append mode (source lines
    412-414 for prompts, 417-419 for categories). *)
Definition merge_append (lname rname : string) (local : json) (remote : jsval)
  : js_error + json :=
  ids ←! id_set lname local;
  fresh ←! filter_new rname ids remote;
  spread2 lname local fresh.

(** ** Strings of the URL computation *)

Fixpoint strip_trailing_slash (s : string) : string :=
  match s with
  | "" => ""
  | String c "" => if Ascii.eqb c "/"%char then "" else s
  | String c rest => String c (strip_trailing_slash rest)
  end.

(** Index of the last ["/"], counted from [from]; [None] is JavaScript's -1. *)
Fixpoint lastIndexOf_slash (s : string) (from : nat) : option nat :=
  match s with
  | "" => None
  | String c rest =>
      match lastIndexOf_slash rest (S from) with
      | Some i => Some i
      | None => if Ascii.eqb c "/"%char then Some from else None
      end
  end.

(** [syncPath.substring(0, syncPath.lastIndexOf('/'))]: a negative end is
    clamped to 0. *)
Definition dir_of (syncPath : string) : string :=
  match lastIndexOf_slash syncPath 0 with
  | Some i => substring 0 i syncPath
  | None => ""
  end.

(** ** Requests, responses and the component's state *)

Record request : Type := Request {
  url : string;
  method : string;
  headers : list (string * string);
  body : option string }.

Record response : Type := Response {
  status : N;
  text : string }.

(** [response.ok]: the status is in the range 200-299. *)
Definition ok (r : response) : bool := ((200 <=? status r) && (status r <=? 299))%N.

Inductive message_type : Type := MsgSuccess | MsgError | MsgInfo.

(** The callbacks handed to [setTimeout] and [setInterval]. *)
Inductive callback : Type :=
| ClearTestMessage
| RemoveStorageKey (key : string)
| ReloadPage
| PollSyncStatus (syncId storageKey : string).

Inductive timer : Type :=
| Timeout (cb : callback) (ms : N)
| Interval (cb : callback) (ms : N).

(** The [useState] cells and [useRef] boxes of the component. A handler
    closes over the cells of the render it belongs to and reads the refs
    live. *)
Record component : Type := Component {
  serverUrl : string;
  username : string;
  password : string;
  syncPath : string;
  testMessage : option (message_type * string);
  currentSyncId : option string;
  messageTimeoutRef : option nat;
  syncCheckIntervalRef : option nat }.

(** ** Effects and programs *)

Inductive eff : Type → Type :=
| storage_local_set (items : list (string * jsval)) : eff unit
| storage_local_get (keys : list string) : eff (gmap string json)
| fetch (rq : request) : eff (js_error + response)
| Date_now : eff N
| read_refs : eff component
| setTestMessage (m : option (message_type * string)) : eff unit
| setCurrentSyncId (id : option string) : eff unit
| set_messageTimeoutRef (r : option nat) : eff unit
| set_syncCheckIntervalRef (r : option nat) : eff unit
| setTimeout (cb : callback) (ms : N) : eff nat
| setInterval (cb : callback) (ms : N) : eff nat
| clearTimer (handle : option nat) : eff unit.

(** A program returns, throws, or performs an effect and goes on with its
    answer. Handlers have no loops, so programs are finite trees. *)
Inductive prog (A : Type) : Type :=
| Ret (a : A)
| Throw (e : js_error)
| Vis {X : Type} (e : eff X) (k : X → prog A).

Arguments Ret {A} a.
Arguments Throw {A} e.
Arguments Vis {A X} e k.

Fixpoint bind {A B} (p : prog A) (f : A → prog B) : prog B :=
  match p with
  | Ret a => f a
  | Throw e => Throw e
  | Vis e k => Vis e (fun x => bind (k x) f)
  end.

(** [try { p } catch (e) { h e }] *)
Fixpoint try_catch {A} (p : prog A) (h : js_error → prog A) : prog A :=
  match p with
  | Ret a => Ret a
  | Throw e => h e
  | Vis e k => Vis e (fun x => try_catch (k x) h)
  end.

Definition perform {X} (e : eff X) : prog X := Vis e Ret.

Declare Scope prog_scope.
Delimit Scope prog_scope with prog.
Bind Scope prog_scope with prog.
Notation "x ⇐ p ; q" := (bind p (fun x => q))
  (at level 100, p at next level, right associativity, only parsing) : prog_scope.
Notation "p ;; q" := (bind p (fun _ => q))
  (at level 100, q at level 200, right associativity, only parsing) : prog_scope.
Open Scope prog_scope.

(** [await promise]: a rejection is thrown at the await. *)
Definition await {A} (p : prog (js_error + A)) : prog A :=
  r ⇐ p; match r with inl e => Throw e | inr a => Ret a end.

(** ** The world a program runs in *)

Inductive event : Type :=
| EvFetch (rq : request) (answer : js_error + response)
| EvStorageSet (items : list (string * jsval))
| EvStorageGet (keys : list string)
| EvNow (n : N).

(** The environment answers each request from what has happened so far
    (latest event first), and each reading of the clock from the number of
    events so far. *)
Record environment : Type := Environment {
  net : list event → request → js_error + response;
  clock : nat → N }.

Record world : Type := World {
  storage : gmap string json;
  comp : component;
  timers : list (nat * timer);
  next_timer : nat;
  trace : list event }.

Definition set_storage (w : world) s := World s (comp w) (timers w) (next_timer w) (trace w).
Definition set_comp (w : world) c := World (storage w) c (timers w) (next_timer w) (trace w).
Definition log (w : world) ev := World (storage w) (comp w) (timers w) (next_timer w) (ev :: trace w).
Definition add_timer (w : world) tm :=
  World (storage w) (comp w) ((next_timer w, tm) :: timers w) (S (next_timer w)) (trace w).
(** [clearTimeout(handle)] and [clearInterval(handle)]: the timer with that
    handle is dropped; the handle [null] drops nothing. *)
Definition remove_timer (handle : option nat) (tms : list (nat * timer))
  : list (nat * timer) :=
  match handle with
  | Some id => List.filter (fun p => negb (Nat.eqb p.1 id)) tms
  | None => tms
  end.
Arguments remove_timer : simpl never.

Definition drop_timer (w : world) (handle : option nat) :=
  World (storage w) (comp w) (remove_timer handle (timers w)) (next_timer w) (trace w).

(** [storage.local.set]: every item is written, later items over earlier
    ones; a property whose value is [undefined] is not stored. *)
Definition write_items (items : list (string * jsval)) (s : gmap string json) : gmap string json :=
  foldl (fun acc kv => match kv.2 with Some v => <[kv.1 := v]> acc | None => acc end) s items.

(** [storage.local.get(keys)]: the object holding the keys that are stored. *)
Definition read_keys (keys : list string) (s : gmap string json) : gmap string json :=
  foldr (fun k acc => match s !! k with Some v => <[k := v]> acc | None => acc end) ∅ keys.

Definition with_testMessage c m :=
  Component (serverUrl c) (username c) (password c) (syncPath c) m
            (currentSyncId c) (messageTimeoutRef c) (syncCheckIntervalRef c).
Definition with_currentSyncId c i :=
  Component (serverUrl c) (username c) (password c) (syncPath c) (testMessage c)
            i (messageTimeoutRef c) (syncCheckIntervalRef c).
Definition with_messageTimeoutRef c r :=
  Component (serverUrl c) (username c) (password c) (syncPath c) (testMessage c)
            (currentSyncId c) r (syncCheckIntervalRef c).
Definition with_syncCheckIntervalRef c r :=
  Component (serverUrl c) (username c) (password c) (syncPath c) (testMessage c)
            (currentSyncId c) (messageTimeoutRef c) r.

Definition do_eff (env : environment) {X} (e : eff X) (w : world) : world * X :=
  match e in eff X return world * X with
  | storage_local_set items =>
      (log (set_storage w (write_items items (storage w))) (EvStorageSet items), ())
  | storage_local_get keys => (log w (EvStorageGet keys), read_keys keys (storage w))
  | fetch rq => let a := net env (trace w) rq in (log w (EvFetch rq a), a)
  | Date_now => let n := clock env (length (trace w)) in (log w (EvNow n), n)
  | read_refs => (w, comp w)
  | setTestMessage m => (set_comp w (with_testMessage (comp w) m), ())
  | setCurrentSyncId i => (set_comp w (with_currentSyncId (comp w) i), ())
  | set_messageTimeoutRef r => (set_comp w (with_messageTimeoutRef (comp w) r), ())
  | set_syncCheckIntervalRef r => (set_comp w (with_syncCheckIntervalRef (comp w) r), ())
  | setTimeout cb ms => (add_timer w (Timeout cb ms), next_timer w)
  | setInterval cb ms => (add_timer w (Interval cb ms), next_timer w)
  | clearTimer handle => (drop_timer w handle, ())
  end.

(** Run to completion: the final world and what the program returned or threw. *)
Fixpoint run (env : environment) {A} (p : prog A) (w : world) : world * (js_error + A) :=
  match p with
  | Ret a => (w, inr a)
  | Throw e => (w, inl e)
  | Vis e k => let r := do_eff env e w in run env (k r.2) r.1
  end.

(** One effect, and [n] effects, of a suspended program. *)
Definition step (env : environment) {A} (p : prog A) (w : world) : world * prog A :=
  match p with
  | Vis e k => let r := do_eff env e w in (r.1, k r.2)
  | _ => (w, p)
  end.

Fixpoint steps (env : environment) (n : nat) {A} (p : prog A) (w : world) : world * prog A :=
  match n with
  | O => (w, p)
  | S m => let r := step env p w in steps env m r.2 r.1
  end.

Definition lift {A} (r : js_error + A) : prog A :=
  match r with inl e => Throw e | inr a => Ret a end.

(** ** The component *)

Inductive mode : Type := replace | append.

(** What [testWebDAVConnection] resolves to. *)
Record connection_result : Type := ConnectionResult {
  success : bool;
  error : option string }.

Definition num (n : N) : json := JNum (Z.of_N n).

(** The SyncDocument a push builds. *)
Definition sync_document (exportedAt : string) (prompts categories : json) : json :=
  JObj [("version", JNum 1); ("exportedAt", JStr exportedAt);
        ("prompts", prompts); ("categories", categories)].

(** A number inside a template literal: its decimal digits. *)
Definition digits (n : N) : string := pretty n.
Arguments digits : simpl never.

(** A program that still has an effect to perform. *)
Definition is_suspended {A} (p : prog A) : bool :=
  match p with Vis _ _ => true | _ => false end.

(** ** Observations on a run *)

(** The requests issued so far, latest first. *)
Fixpoint requests (tr : list event) : list request :=
  match tr with
  | [] => []
  | EvFetch rq _ :: rest => rq :: requests rest
  | _ :: rest => requests rest
  end.

(** The values passed to [storage.local.set] under [key], latest first. *)
Fixpoint written (key : string) (tr : list event) : list jsval :=
  match tr with
  | [] => []
  | EvStorageSet items :: rest =>
      map snd (List.filter (fun kv => String.eqb kv.1 key) items) ++ written key rest
  | _ :: rest => written key rest
  end.

(** The [status] field of the SyncStatus record stored under [key]. *)
Definition status_at (key : string) (w : world) : jsval :=
  match storage w !! key with
  | Some (JObj fields) => assoc "status" fields
  | _ => None
  end.

Definition in_progress (key : string) (w : world) : Prop :=
  status_at key w = Some (JStr "in_progress").

(** The keys the component itself writes besides the two collections: the
    two status keys and the keys of the toast records. *)
Definition collection_key (k : string) : bool :=
  negb (String.eqb k "webdav_sync_status")
  && negb (String.eqb k "webdav_from_sync_status")
  && negb (String.prefix "temp_webdav_message_" k).

(** The environment answers [rq] with [a] whenever it is asked. *)
Definition answers (env : environment) (rq : request) (a : js_error + response) : Prop :=
  ∀ tr, net env tr rq = a.

(** The environment answers [rq] with [a] when it is asked after [tr], no
    other request having been issued in between. *)
Definition answers_after (env : environment) (tr : list event) (rq : request)
    (a : js_error + response) : Prop :=
  ∀ evs, requests evs = [] → net env (evs ++ tr) rq = a.

(** The body of the latest PUT to [u] that the server accepted. *)
Fixpoint last_put (u : string) (tr : list event) : option string :=
  match tr with
  | [] => None
  | EvFetch rq (inr r) :: rest =>
      if String.eqb (method rq) "PUT" && String.eqb (url rq) u && ok r
      then body rq else last_put u rest
  | _ :: rest => last_put u rest
  end.

Fixpoint find_timer (id : nat) (tms : list (nat * timer)) : option timer :=
  match tms with
  | [] => None
  | (i, tm) :: rest => if Nat.eqb i id then Some tm else find_timer id rest
  end.

(** [localResult[key] || []] *)
Definition stored_or_empty (s : gmap string json) (key : string) : json :=
  js_or (s !! key) (JArr []).

(** The two directions of a sync, and the storage key of each direction's
    SyncStatus record. *)
Inductive operation : Type := Push | Pull (m : mode).

Definition status_key (op : operation) : string :=
  match op with
  | Push => "webdav_sync_status"
  | Pull _ => "webdav_from_sync_status"
  end.

(** ** The data model of the specification *)

(** A Prompt or Category record: an object with a string [id]. *)
Definition record_id (p : json) : option string :=
  match p with
  | JObj fields => match assoc "id" fields with Some (JStr s) => Some s | _ => None end
  | _ => None
  end.

Definition is_record (p : json) : Prop := is_Some (record_id p).

(** Append mode in the words of the specification: the local entries, then
    the downloaded entries whose id is not the id of a local entry, in
    document order. *)
Definition append_spec (local downloaded : list json) : list json :=
  local ++ filter (fun p => record_id p ∉ record_id <$> local) downloaded.

(** The [categories] of a document, the empty sequence when the document
    has none. *)
Definition categories_or_empty (doc : json) : json :=
  match doc with
  | JObj fields => match assoc "categories" fields with Some v => v | None => JArr [] end
  | _ => JArr []
  end.

(** The translation table, the platform's [btoa], [JSON.stringify],
    [JSON.parse] ([None]: the text is not JSON) and [Date.toISOString], and
    the two storage keys of [utils/constants]: what the component imports
    and does not define. *)
Class Platform : Type := {
  t : string → string;
  btoa : string → string;
  JSON_stringify : json → string;
  JSON_parse : string → option json;
  toISOString : N → string;
  BROWSER_STORAGE_KEY : string;
  CATEGORIES_STORAGE_KEY : string }.

Section Component.

Context `{platform : Platform}.

Definition authorization (user pass : string) : string * string :=
  ("Authorization", "Basic " +:+ btoa (user +:+ ":" +:+ pass)).

(** [await response.json()] *)
Definition response_json (r : response) : prog json :=
  match JSON_parse (text r) with
  | Some v => Ret v
  | None => Throw (SyntaxError "Unexpected token in JSON")
  end.

(** The guard [if (messageTimeoutRef.current)] around [clearTimeout] is
    the [null] case of [clearTimer]. Storage calls take effect in the order
    in which they are made, and the [then] callback that arms the removal
    of the toast record runs right after its write. *)
Definition showMessage (type : message_type) (txt : string) : prog unit :=
  perform (setTestMessage (Some (type, txt)));;
  c ⇐ perform read_refs;
  perform (clearTimer (messageTimeoutRef c));;
  id ⇐ perform (setTimeout ClearTestMessage 5000);
  perform (set_messageTimeoutRef (Some id));;
  match type with
  | MsgInfo => Ret ()
  | _ =>
      n1 ⇐ perform Date_now;
      let statusKey := "temp_webdav_message_" +:+ digits n1 in
      n2 ⇐ perform Date_now;
      n3 ⇐ perform Date_now;
      let statusValue := JObj [
        ("id", JStr ("message_" +:+ digits n2));
        ("status", JStr (match type with MsgSuccess => "success" | _ => "error" end));
        ("message", JStr txt);
        ("completedTime", num n3) ] in
      perform (storage_local_set [(statusKey, Some statusValue)]);;
      _ ⇐ perform (setTimeout (RemoveStorageKey statusKey) 5000);
      Ret ()
  end.

Definition testWebDAVConnection (url user pass : string) : prog connection_result :=
  try_catch
    (response ⇐ await (perform (fetch
       (Request url "PROPFIND"
          [authorization user pass; ("Depth", "0"); ("Content-Type", "application/xml")]
          None)));
     if ok response || (status response =? 207)%N then
       Ret (ConnectionResult true None)
     else if (status response =? 401)%N then
       Ret (ConnectionResult false (Some (t "webdavAuthFailed")))
     else
       Ret (ConnectionResult false
              (Some (t "webdavConnectionFailed" +:+ ": " +:+ digits (status response)))))
    (fun err =>
       Ret (ConnectionResult false (Some (str_or (message err) (t "testConnectionError"))))).

Definition stop_polling : prog unit :=
  c ⇐ perform read_refs;
  perform (clearTimer (syncCheckIntervalRef c));;
  perform (set_syncCheckIntervalRef None);;
  perform (setCurrentSyncId None).

(** The body of the interval callback of [startSyncStatusPolling]. *)
Definition poll_sync_status (syncId storageKey : string) : prog unit :=
  try_catch
    (result ⇐ perform (storage_local_get [storageKey]);
     let syncStatus := result !! storageKey in
     match syncStatus with
     | Some v =>
         if truthy syncStatus then
           id ⇐ lift (prop v "id");
           if strict_eq_str id syncId then
             st ⇐ lift (prop v "status");
             if strict_eq_str st "success" || strict_eq_str st "error"
             then stop_polling
             else Ret ()
           else stop_polling
         else stop_polling
     | None => stop_polling
     end)
    (fun _ => stop_polling).

Definition startSyncStatusPolling (syncId storageKey : string) : prog unit :=
  c ⇐ perform read_refs;
  perform (clearTimer (syncCheckIntervalRef c));;
  perform (setCurrentSyncId (Some syncId));;
  id ⇐ perform (setInterval (PollSyncStatus syncId storageKey) 2000);
  perform (set_syncCheckIntervalRef (Some id)).

Definition configured (c : component) : bool :=
  str_truthy (serverUrl c) && str_truthy (username c) && str_truthy (password c).

(** [if (currentSyncId)] *)
Definition sync_running (c : component) : bool :=
  match currentSyncId c with Some id => str_truthy id | None => false end.

Definition status_record (syncId st msg timeField : string) (time : N) : jsval :=
  Some (JObj [("id", JStr syncId); ("status", JStr st);
              ("message", JStr msg); (timeField, num time)]).

Definition fullPath (c : component) : string :=
  strip_trailing_slash (serverUrl c) +:+ syncPath c.

(** [c] holds the state cells of the render the handler was created in. *)
Definition handleSyncToWebDAV (c : component) : prog unit :=
  if negb (configured c) then showMessage MsgError (t "webdavNotConfigured")
  else if sync_running c then showMessage MsgInfo (t "syncTaskInProgress")
  else
    try_catch
      (showMessage MsgInfo (t "startingSyncToWebDAV");;
       now ⇐ perform Date_now;
       let syncId := "sync_" +:+ digits now in
       startTime ⇐ perform Date_now;
       perform (storage_local_set
         [("webdav_sync_status",
           status_record syncId "in_progress" (t "syncingToWebDAVMessage")
                         "startTime" startTime)]);;
       result ⇐ perform (storage_local_get [BROWSER_STORAGE_KEY; CATEGORIES_STORAGE_KEY]);
       let prompts := stored_or_empty result BROWSER_STORAGE_KEY in
       let categories := stored_or_empty result CATEGORIES_STORAGE_KEY in
       date ⇐ perform Date_now;
       let syncData := sync_document (toISOString date) prompts categories in
       let dirPath := dir_of (syncPath c) in
       (if str_truthy dirPath then
          _ ⇐ perform (fetch
            (Request (strip_trailing_slash (serverUrl c) +:+ dirPath) "MKCOL"
               [authorization (username c) (password c)] None));
          Ret ()
        else Ret ());;
       response ⇐ await (perform (fetch
         (Request (fullPath c) "PUT"
            [authorization (username c) (password c); ("Content-Type", "application/json")]
            (Some (JSON_stringify syncData)))));
       (if ok response || (status response =? 201)%N || (status response =? 204)%N then
          completedTime ⇐ perform Date_now;
          perform (storage_local_set
            [("webdav_sync_status",
              status_record syncId "success" (t "syncToWebDAVSuccess")
                            "completedTime" completedTime)]);;
          showMessage MsgSuccess (t "syncToWebDAVSuccess")
        else Throw (Error ("HTTP " +:+ digits (status response))));;
       startSyncStatusPolling syncId "webdav_sync_status")
      (fun err =>
         showMessage MsgError (t "syncToWebDAVFailed" +:+ ": " +:+ message err);;
         perform (setCurrentSyncId None)).

Definition syncFromWebDAV (m : mode) (c : component) : prog unit :=
  if negb (configured c) then showMessage MsgError (t "webdavNotConfigured")
  else if sync_running c then showMessage MsgInfo (t "syncTaskInProgress")
  else
    try_catch
      (let modeText := match m with
                       | replace => t "startingWebDAVOverwriteSync"
                       | append => t "startingWebDAVAppendSync"
                       end in
       showMessage MsgInfo modeText;;
       now ⇐ perform Date_now;
       let syncId := "sync_" +:+ digits now in
       startTime ⇐ perform Date_now;
       perform (storage_local_set
         [("webdav_from_sync_status",
           status_record syncId "in_progress"
             (match m with
              | replace => t "syncingFromWebDAVOverwriteMessage"
              | append => t "syncingFromWebDAVAppendMessage"
              end)
             "startTime" startTime)]);;
       response ⇐ await (perform (fetch
         (Request (fullPath c) "GET" [authorization (username c) (password c)] None)));
       (if negb (ok response) then
          if (status response =? 404)%N then Throw (Error (t "webdavFileNotFound"))
          else Throw (Error ("HTTP " +:+ digits (status response)))
        else Ret ());;
       syncData ⇐ response_json response;
       prompts ⇐ lift (prop syncData "prompts");
       (if negb (truthy prompts) || negb (isArray prompts) then
          Throw (Error (t "invalidWebDAVDataFormat"))
        else Ret ());;
       match m with
       | replace =>
           categories ⇐ lift (prop syncData "categories");
           perform (storage_local_set
             [(BROWSER_STORAGE_KEY, prompts);
              (CATEGORIES_STORAGE_KEY, Some (js_or categories (JArr [])))])
       | append =>
           localResult ⇐ perform
             (storage_local_get [BROWSER_STORAGE_KEY; CATEGORIES_STORAGE_KEY]);
           let localPrompts := stored_or_empty localResult BROWSER_STORAGE_KEY in
           let localCategories := stored_or_empty localResult CATEGORIES_STORAGE_KEY in
           mergedPrompts ⇐ lift
             (merge_append "localPrompts" "syncData.prompts" localPrompts prompts);
           categories ⇐ lift (prop syncData "categories");
           mergedCategories ⇐ lift
             (merge_append "localCategories" "(syncData.categories || [])" localCategories
                (Some (js_or categories (JArr []))));
           perform (storage_local_set
             [(BROWSER_STORAGE_KEY, Some mergedPrompts);
              (CATEGORIES_STORAGE_KEY, Some mergedCategories)])
       end;;
       completedTime ⇐ perform Date_now;
       perform (storage_local_set
         [("webdav_from_sync_status",
           status_record syncId "success" (t "syncFromWebDAVSuccess")
                         "completedTime" completedTime)]);;
       showMessage MsgSuccess (t "syncFromWebDAVSuccess");;
       startSyncStatusPolling syncId "webdav_from_sync_status";;
       _ ⇐ perform (setTimeout ReloadPage 1500);
       Ret ())
      (fun err =>
         showMessage MsgError (t "syncFromWebDAVFailed" +:+ ": " +:+ message err);;
         perform (setCurrentSyncId None)).

Definition handleSyncFromWebDAVReplace := syncFromWebDAV replace.
Definition handleSyncFromWebDAVAppend := syncFromWebDAV append.

(** The interval timer that [syncCheckIntervalRef] holds fires once. *)
Definition fire_interval (env : environment) (w : world) : world :=
  match syncCheckIntervalRef (comp w) with
  | Some id =>
      match find_timer id (timers w) with
      | Some (Interval (PollSyncStatus syncId storageKey) _) =>
          (run env (poll_sync_status syncId storageKey) w).1
      | _ => w
      end
  | None => w
  end.

(** A click: the handler of the current render runs to completion. *)
Definition invoke (env : environment) (handler : component → prog unit) (w : world)
  : world * (js_error + unit) :=
  run env (handler (comp w)) w.

(** The request a pull sends. *)
Definition download_request (c : component) : request :=
  Request (fullPath c) "GET" [authorization (username c) (password c)] None.

(** The request with which a push stores [doc]. *)
Definition upload_request (c : component) (doc : json) : request :=
  Request (fullPath c) "PUT"
    [authorization (username c) (password c); ("Content-Type", "application/json")]
    (Some (JSON_stringify doc)).

Definition propfind_request (url user pass : string) : request :=
  Request url "PROPFIND"
    [authorization user pass; ("Depth", "0"); ("Content-Type", "application/xml")] None.

Definition handler (op : operation) : component → prog unit :=
  match op with
  | Push => handleSyncToWebDAV
  | Pull m => syncFromWebDAV m
  end.

(** A pull gets as far as its download when the credentials are complete
    and no sync identifier is held. *)
Definition ready (c : component) : Prop :=
  configured c = true ∧ sync_running c = false.


(** The world [w1] a successful push leaves behind when started in [w]:
    the credentials are untouched, the document holding the local
    collections is the latest one stored at the sync path, the status
    record says success, and the poller watches that record under the
    sync identifier the component now holds. *)
Definition pushed (w w1 : world) : Prop :=
  serverUrl (comp w1) = serverUrl (comp w)
  ∧ username (comp w1) = username (comp w)
  ∧ password (comp w1) = password (comp w)
  ∧ syncPath (comp w1) = syncPath (comp w)
  ∧ ∃ syncId interval time exportedAt,
      currentSyncId (comp w1) = Some syncId
      ∧ syncCheckIntervalRef (comp w1) = Some interval
      ∧ find_timer interval (timers w1)
        = Some (Interval (PollSyncStatus syncId "webdav_sync_status") 2000)
      ∧ storage w1 !! "webdav_sync_status"
        = status_record syncId "success" (t "syncToWebDAVSuccess") "completedTime" time
      ∧ last_put (fullPath (comp w)) (trace w1)
        = Some (JSON_stringify
                  (sync_document exportedAt
                     (stored_or_empty (storage w) BROWSER_STORAGE_KEY)
                     (stored_or_empty (storage w) CATEGORIES_STORAGE_KEY))).

End Component.

(** ** Timers that fire, and the end of the component *)

(** The callback that [showMessage] hands to [setTimeout]. *)
Definition clear_test_message : prog unit :=
  perform (setTestMessage None);;
  perform (set_messageTimeoutRef None).

(** The timeout that [messageTimeoutRef] holds fires: a timeout is
    dropped when it fires, then its callback runs. *)
Definition fire_message_timeout (env : environment) (w : world) : world :=
  match messageTimeoutRef (comp w) with
  | Some id =>
      match find_timer id (timers w) with
      | Some (Timeout ClearTestMessage _) =>
          (run env clear_test_message (drop_timer w (Some id))).1
      | _ => w
      end
  | None => w
  end.

(** The function that the mount effect returns: it runs when the component
    is removed. The two guards are the [null] cases of [clearTimer]. *)
Definition cleanup : prog unit :=
  c ⇐ perform read_refs;
  perform (clearTimer (messageTimeoutRef c));;
  c' ⇐ perform read_refs;
  perform (clearTimer (syncCheckIntervalRef c')).

(** ** Observations on timers *)

Definition is_message_timeout (tm : timer) : bool :=
  match tm with Timeout ClearTestMessage _ => true | _ => false end.

Definition is_interval (tm : timer) : bool :=
  match tm with Interval _ _ => true | _ => false end.

(** The armed timers [tms] are in order with the next handle [next] and
    the handles held by [messageTimeoutRef] and [syncCheckIntervalRef]:
    handles are distinct and below the next handle to be given out, an
    armed timeout clears the message exactly when it is the timer that
    [messageTimeoutRef] holds, and an armed timer is an interval exactly
    when it is the timer that [syncCheckIntervalRef] holds. *)
Definition in_order (tms : list (nat * timer)) (next : nat)
    (messageRef intervalRef : option nat) : Prop :=
  NoDup tms.*1
  ∧ Forall (fun p => p.1 < next) tms
  ∧ (∀ id, messageRef = Some id → id < next)
  ∧ (∀ id, intervalRef = Some id → id < next)
  ∧ (∀ id tm, (id, tm) ∈ tms →
       (is_message_timeout tm = true ↔ messageRef = Some id)
       ∧ (is_interval tm = true ↔ intervalRef = Some id)).

Definition timers_in_order (w : world) : Prop :=
  in_order (timers w) (next_timer w)
           (messageTimeoutRef (comp w)) (syncCheckIntervalRef (comp w)).

(** A program that starts with its timers in order ends with them in
    order. *)
Definition stays_in_order (w w' : world) : Prop :=
  timers_in_order w → timers_in_order w'.

(** A relation between the world a program starts in and the world it
    ends in that holds for every environment. *)
Definition keeps (R : world → world → Prop) {A} (p : prog A) : Prop :=
  ∀ env w, R w (run env p w).1.

(** Nothing changes under the storage key [k]. *)
Definition same_at (k : string) (w w' : world) : Prop :=
  storage w' !! k = storage w !! k.

(** The requests issued between [w] and [w'] all satisfy [Q]. *)
Definition sent_only (Q : request → Prop) (w w' : world) : Prop :=
  ∃ new : list request,
    requests (trace w') = (new ++ requests (trace w))%list ∧ Forall Q new.

(** [u.endsWith("/")] *)
Fixpoint ends_with_slash (u : string) : bool :=
  match u with
  | "" => false
  | String c "" => Ascii.eqb c "/"%char
  | String _ rest => ends_with_slash rest
  end.

(** [p.id] and [q.id] are the same value for a [Set]; an entry that is
    [null] has no properties to read. *)
Definition same_id (p q : json) : bool :=
  match prop p "id", prop q "id" with
  | inr i, inr j => same_value_zero i j
  | _, _ => false
  end.

(** ** The settings form *)

(** [v ?? d] *)
Definition nullish (v : jsval) (d : json) : json :=
  match v with
  | None | Some JNull => d
  | Some x => x
  end.

(** The calls on [browser.storage.sync]. *)
Inductive sync_call : Type :=
| SyncGet (keys : list string)
| SyncSet (items : list (string * jsval)).

(** The settings form adds to the effects of the sync engine: the synced
    storage area, whose calls can be rejected, reading and removing from
    local storage, and the setters of the state cells of the form. A setter
    receives whatever value its argument evaluates to. *)
Inductive page_eff : Type → Type :=
| engine_eff {X : Type} (e : eff X) : page_eff X
| storage_sync_get (keys : list string) : page_eff (js_error + gmap string json)
| storage_sync_set (items : list (string * jsval)) : page_eff (js_error + unit)
| storage_local_get_all : page_eff (gmap string json)
| storage_local_remove (keys : list string) : page_eff unit
| setServerUrl (v : json) : page_eff unit
| setUsername (v : json) : page_eff unit
| setPassword (v : json) : page_eff unit
| setSyncPath (v : json) : page_eff unit
| setIsLoading (b : bool) : page_eff unit
| setIsAutoSyncEnabled (v : json) : page_eff unit.

Inductive page_prog (A : Type) : Type :=
| PRet (a : A)
| PThrow (e : js_error)
| PVis {X : Type} (e : page_eff X) (k : X → page_prog A).

Arguments PRet {A} a.
Arguments PThrow {A} e.
Arguments PVis {A X} e k.

Fixpoint page_bind {A B} (p : page_prog A) (f : A → page_prog B) : page_prog B :=
  match p with
  | PRet a => f a
  | PThrow e => PThrow e
  | PVis e k => PVis e (fun x => page_bind (k x) f)
  end.

Fixpoint page_try_catch {A} (p : page_prog A) (h : js_error → page_prog A) : page_prog A :=
  match p with
  | PRet a => PRet a
  | PThrow e => h e
  | PVis e k => PVis e (fun x => page_try_catch (k x) h)
  end.

Definition page_perform {X} (e : page_eff X) : page_prog X := PVis e PRet.

(** A program of the sync engine, called from the form. *)
Fixpoint call {A} (p : prog A) : page_prog A :=
  match p with
  | Ret a => PRet a
  | Throw e => PThrow e
  | Vis e k => PVis (engine_eff e) (fun x => call (k x))
  end.

Declare Scope page_scope.
Delimit Scope page_scope with page.
Bind Scope page_scope with page_prog.
Notation "x ⇐ p ; q" := (page_bind p (fun x => q))
  (at level 100, p at next level, right associativity, only parsing) : page_scope.
Notation "p ;; q" := (page_bind p (fun _ => q))
  (at level 100, q at level 200, right associativity, only parsing) : page_scope.

Definition page_await {A} (p : page_prog (js_error + A)) : page_prog A :=
  (r ⇐ p; match r with inl e => PThrow e | inr a => PRet a end)%page.

(** The environment of the form: the environment of the engine, and which
    calls on the synced storage area it rejects. *)
Record page_environment : Type := PageEnvironment {
  engine_env : environment;
  rejects : sync_call → option js_error }.

(** The page: the world of the sync engine, whose component holds
    [serverUrl], [username], [password] and [syncPath], the synced storage
    area, and the two other state cells of the form. *)
Record page : Type := Page {
  engine : world;
  sync_area : gmap string json;
  isLoading : bool;
  isAutoSyncEnabled : bool }.

Definition set_engine (s : page) w := Page w (sync_area s) (isLoading s) (isAutoSyncEnabled s).
Definition set_sync_area (s : page) a := Page (engine s) a (isLoading s) (isAutoSyncEnabled s).
Definition set_isLoading (s : page) b := Page (engine s) (sync_area s) b (isAutoSyncEnabled s).
Definition set_isAutoSyncEnabled (s : page) b := Page (engine s) (sync_area s) (isLoading s) b.

Definition with_serverUrl c u :=
  Component u (username c) (password c) (syncPath c) (testMessage c)
            (currentSyncId c) (messageTimeoutRef c) (syncCheckIntervalRef c).
Definition with_username c u :=
  Component (serverUrl c) u (password c) (syncPath c) (testMessage c)
            (currentSyncId c) (messageTimeoutRef c) (syncCheckIntervalRef c).
Definition with_password c p :=
  Component (serverUrl c) (username c) p (syncPath c) (testMessage c)
            (currentSyncId c) (messageTimeoutRef c) (syncCheckIntervalRef c).
Definition with_syncPath c p :=
  Component (serverUrl c) (username c) (password c) p (testMessage c)
            (currentSyncId c) (messageTimeoutRef c) (syncCheckIntervalRef c).

(** A cell declared [useState<string>] holds a string, the cell declared
    [useState<boolean>] a boolean: a setter called with another value has
    no outcome here ([None]). *)
Definition set_text (s : page) (f : component → string → component) (v : json)
  : option (page * unit) :=
  match v with
  | JStr x => Some (set_engine s (set_comp (engine s) (f (comp (engine s)) x)), ())
  | _ => None
  end.

(** [storage.local.remove(keys)] *)
Definition remove_keys (keys : list string) (s : gmap string json) : gmap string json :=
  foldr delete s keys.

Definition do_page_eff (penv : page_environment) {X} (e : page_eff X) (s : page)
  : option (page * X) :=
  match e in page_eff X return option (page * X) with
  | engine_eff e =>
      let r := do_eff (engine_env penv) e (engine s) in Some (set_engine s r.1, r.2)
  | storage_sync_get keys =>
      match rejects penv (SyncGet keys) with
      | Some err => Some (s, inl err)
      | None => Some (s, inr (read_keys keys (sync_area s)))
      end
  | storage_sync_set items =>
      match rejects penv (SyncSet items) with
      | Some err => Some (s, inl err)
      | None => Some (set_sync_area s (write_items items (sync_area s)), inr ())
      end
  | storage_local_get_all => Some (s, storage (engine s))
  | storage_local_remove keys =>
      Some (set_engine s (set_storage (engine s) (remove_keys keys (storage (engine s)))), ())
  | setServerUrl v => set_text s with_serverUrl v
  | setUsername v => set_text s with_username v
  | setPassword v => set_text s with_password v
  | setSyncPath v => set_text s with_syncPath v
  | setIsLoading b => Some (set_isLoading s b, ())
  | setIsAutoSyncEnabled v =>
      match v with
      | JBool b => Some (set_isAutoSyncEnabled s b, ())
      | _ => None
      end
  end.

Fixpoint page_run (penv : page_environment) {A} (p : page_prog A) (s : page)
  : option (page * (js_error + A)) :=
  match p with
  | PRet a => Some (s, inr a)
  | PThrow e => Some (s, inl e)
  | PVis e k =>
      match do_page_eff penv e s with
      | Some r => page_run penv (k r.2) r.1
      | None => None
      end
  end.

(** [Object.keys(allData)]; the order of the keys plays no part in what the
    form does with them. *)
Definition object_keys (m : gmap string json) : list string := (map_to_list m).*1.

(** The keys [clearTemporaryMessages] removes. *)
Definition temporary_key (key : string) : bool :=
  String.prefix "temp_webdav_message_" key
  || String.eqb key "webdav_sync_status"
  || String.eqb key "webdav_from_sync_status".

(** What the synced storage area holds under the keys of the form: only
    the form writes there, four strings and a boolean. *)
Definition settings_typed (area : gmap string json) : Prop :=
  (∀ k, k ∈ ["webdavServerUrl"; "webdavUsername"; "webdavPassword"; "webdavSyncPath"] →
        area !! k = None ∨ ∃ x, area !! k = Some (JStr x))
  ∧ (area !! "webdavAutoSyncEnabled" = None
     ∨ ∃ b, area !! "webdavAutoSyncEnabled" = Some (JBool b)).

(** The string stored under [k], the empty string when nothing is. *)
Definition stored_text (area : gmap string json) (k : string) : string :=
  match area !! k with Some (JStr x) => x | _ => "" end.

Definition stored_flag (area : gmap string json) (k : string) : bool :=
  match area !! k with Some (JBool b) => b | _ => false end.

Section Form.

Context `{platform : Platform}.

Open Scope page_scope.

(** The [finally] clause runs after the [try] and after the [catch], which
    only logs. *)
Definition loadSettings : page_prog unit :=
  page_try_catch
    (page_perform (setIsLoading true);;
     result ⇐ page_await (page_perform (storage_sync_get
       ["webdavServerUrl"; "webdavUsername"; "webdavPassword"; "webdavSyncPath";
        "webdavAutoSyncEnabled"]));
     page_perform (setServerUrl (js_or (result !! "webdavServerUrl") (JStr "")));;
     page_perform (setUsername (js_or (result !! "webdavUsername") (JStr "")));;
     page_perform (setPassword (js_or (result !! "webdavPassword") (JStr "")));;
     page_perform (setSyncPath
       (js_or (result !! "webdavSyncPath") (JStr "/quick-prompt/prompts.json")));;
     page_perform (setIsAutoSyncEnabled
       (nullish (result !! "webdavAutoSyncEnabled") (JBool false))))
    (fun _ => PRet ());;
  page_perform (setIsLoading false).

(** Local storage answers every call, as in the sync engine, so the [catch]
    clause has nothing to catch. *)
Definition clearTemporaryMessages : page_prog unit :=
  page_try_catch
    (allData ⇐ page_perform storage_local_get_all;
     let keysToRemove := List.filter temporary_key (object_keys allData) in
     if (0 <? length keysToRemove)%nat
     then page_perform (storage_local_remove keysToRemove)
     else PRet ())
    (fun _ => PRet ()).

Definition saveAutoSyncEnabled (enabled : bool) : page_prog unit :=
  page_try_catch
    (page_await (page_perform (storage_sync_set
       [("webdavAutoSyncEnabled", Some (JBool enabled))])))
    (fun _ => PRet ()).

Definition handleAutoSyncToggle (enabled : bool) : page_prog unit :=
  page_perform (setIsAutoSyncEnabled (JBool enabled));;
  saveAutoSyncEnabled enabled.

(** [c] holds the state cells of the render the handler was created in. *)
Definition handleSubmit (c : component) : page_prog unit :=
  if negb (configured c) then call (showMessage MsgError (t "fillWebDAVSettings"))
  else
    page_try_catch
      (testResult ⇐ call (testWebDAVConnection (serverUrl c) (username c) (password c));
       if success testResult then
         page_await (page_perform (storage_sync_set
           [("webdavServerUrl", Some (JStr (serverUrl c)));
            ("webdavUsername", Some (JStr (username c)));
            ("webdavPassword", Some (JStr (password c)));
            ("webdavSyncPath", Some (JStr (syncPath c)))]));;
         call (showMessage MsgSuccess (t "connectionSuccessWebDAVSaved"))
       else
         call (showMessage MsgError
                 (str_or (default "" (error testResult)) (t "testConnectionError"))))
      (fun _ => call (showMessage MsgError (t "testConnectionError"))).



(** A click or a submit: the handler of the current render runs to
    completion. *)
Definition page_invoke (penv : page_environment) (h : component → page_prog unit)
    (s : page) : option (page * (js_error + unit)) :=
  page_run penv (h (comp (engine s))) s.

(** A request to the server of the component [c]: its URL starts with the
    server URL, less a slash at its end, and it carries the credentials. *)
Definition to_server (c : component) (rq : request) : Prop :=
  String.prefix (strip_trailing_slash (serverUrl c)) (url rq) = true
  ∧ authorization (username c) (password c) ∈ headers rq.

End Form.

(** ** Sample platform, server and worlds *)

(** A record with the given id and a title. *)
Definition entry (id title : string) : json :=
  JObj [("id", JStr id); ("title", JStr title)].

(** Documents a server may hold; the keys of the table below stand for
    their JSON texts. *)
Definition doc_b_c : json :=
  JObj [("version", JNum 1);
        ("prompts", JArr [entry "b" "remote b"; entry "c" "remote c"])].

Definition doc_null_categories : json :=
  JObj [("prompts", JArr [entry "b" "remote b"]); ("categories", JNull)].

Definition doc_zero_categories : json :=
  JObj [("prompts", JArr [entry "b" "remote b"]); ("categories", JNum 0)].

Definition doc_text_categories : json :=
  JObj [("prompts", JArr [entry "b" "remote b"]); ("categories", JStr "all")].

Fixpoint starts_with (p s : string) : bool :=
  match p, s with
  | "", _ => true
  | String a p', String b s' => Ascii.eqb a b && starts_with p' s'
  | _, _ => false
  end.

Fixpoint skip (n : nat) (s : string) : string :=
  match n, s with
  | S m, String _ rest => skip m rest
  | _, _ => s
  end.

(** The translation table shows the message keys, [btoa] leaves the
    credentials readable, and the parser knows the sample documents. *)
Definition sample_platform : Platform := {|
  t := fun key => key;
  btoa := fun s => s;
  JSON_stringify := fun doc =>
    match doc with
    | JObj [("version", _); ("exportedAt", JStr exportedAt); _; _] =>
        "upload of " +:+ exportedAt
    | _ => "other"
    end;
  JSON_parse := fun body =>
    if String.eqb body "null" then Some JNull
    else if String.eqb body "{prompts:[b,c]}" then Some doc_b_c
    else if String.eqb body "{prompts:[b],categories:null}" then Some doc_null_categories
    else if String.eqb body "{prompts:[b],categories:0}" then Some doc_zero_categories
    else if String.eqb body "{prompts:[b],categories:'all'}" then Some doc_text_categories
    else if starts_with "upload of " body then
      Some (sync_document (skip 10 body) (JArr [entry "a" "local a"]) (JArr []))
    else None;
  toISOString := digits;
  BROWSER_STORAGE_KEY := "userPrompts";
  CATEGORIES_STORAGE_KEY := "userCategories" |}.

(** A server that answers PROPFIND with [propfind], PUT with [put], GET
    with [get] and everything else with 201; the clock starts at 1000. *)
Definition server (propfind put get : js_error + response) : environment :=
  Environment
    (fun _ rq =>
       if String.eqb (method rq) "PROPFIND" then propfind
       else if String.eqb (method rq) "PUT" then put
       else if String.eqb (method rq) "GET" then get
       else inr (Response 201 ""))
    (fun n => 1000 + N.of_nat n)%N.

(** A server that keeps what is uploaded. *)
Definition storing_server : environment :=
  Environment
    (fun tr rq =>
       if String.eqb (method rq) "GET" then
         match last_put (url rq) tr with
         | Some b => inr (Response 200 b)
         | None => inr (Response 404 "")
         end
       else inr (Response 201 ""))
    (fun n => 1000 + N.of_nat n)%N.

Definition credentials (url user pass : string) : component :=
  Component url user pass "/quick-prompt/prompts.json" None None None None.

(** The options page right after it is opened, over the given storage. *)
Definition opened (c : component) (s : gmap string json) : world :=
  World s c [] 1 [].

Definition alice : component := credentials "https://dav.example.com/" "alice" "secret".

Definition local_a_b : gmap string json :=
  {[ "userPrompts" := JArr [entry "a" "local a"; entry "b" "local b"] ]}.

Definition local_a_a : gmap string json :=
  {[ "userPrompts" := JArr [entry "a" "first"; entry "a" "second"] ]}.



(** The synced storage area accepts every call, or rejects every call. *)
Definition accepting (env : environment) : page_environment :=
  PageEnvironment env (fun _ => None).

Definition refusing (env : environment) (e : js_error) : page_environment :=
  PageEnvironment env (fun _ => Some e).

(** What the form has saved before: no sync path. *)
Definition saved_settings : gmap string json :=
  {[ "webdavServerUrl" := JStr "https://dav.example.com/";
     "webdavUsername" := JStr "alice";
     "webdavPassword" := JStr "secret";
     "webdavAutoSyncEnabled" := JBool true ]}.

(** The options page while it loads, over the given synced storage area. *)
Definition loading (c : component) (area : gmap string json) : page :=
  Page (opened c ∅) area true false.

(** A component with a message on display and a poller running, and the
    removal of a toast record pending. *)
Definition armed : world :=
  World ∅
    (Component "https://dav.example.com/" "alice" "secret" "/quick-prompt/prompts.json"
       (Some (MsgSuccess, "saved")) (Some "sync_1000") (Some 1) (Some 3))
    [(3, Interval (PollSyncStatus "sync_1000" "webdav_sync_status") 2000);
     (2, Timeout (RemoveStorageKey "temp_webdav_message_1000") 5000);
     (1, Timeout ClearTestMessage 5000)]
    4 [].

(** Entries without an id, and with a number as id. *)
Definition untitled (title : string) : json := JObj [("title", JStr title)].

Definition numbered (id : Z) : json := JObj [("id", JNum id)].

(** * Properties *)

Section Properties.

Context `{platform : Platform}.

(** The two collections live under two different keys, neither of which is
    a key the sync engine uses for its own records. *)
Hypothesis prompts_key : collection_key BROWSER_STORAGE_KEY = true.
Hypothesis categories_key : collection_key CATEGORIES_STORAGE_KEY = true.
Hypothesis keys_differ : BROWSER_STORAGE_KEY ≠ CATEGORIES_STORAGE_KEY.

(** ** Storage keys *)

Lemma prefix_app (p x : string) : String.prefix p (p +:+ x) = true.
Proof.
  induction p as [|a p IH]; simpl.
  - by destruct x.
  - by destruct (ascii_dec a a).
Qed.

Lemma temp_key_neq (x k : string) :
  String.prefix "temp_webdav_message_" k = false → "temp_webdav_message_" +:+ x ≠ k.
Proof. intros H <-. by rewrite prefix_app in H. Qed.

Lemma collection_key_temp (x k : string) :
  collection_key k = true → "temp_webdav_message_" +:+ x ≠ k.
Proof.
  unfold collection_key. intros H. apply temp_key_neq.
  apply andb_prop in H as [_ H]. by apply negb_true_iff in H.
Qed.

Lemma collection_key_status (op : operation) (k : string) :
  collection_key k = true → status_key op ≠ k.
Proof.
  unfold collection_key. intros H <-. by destruct op as [|m].
Qed.

Lemma status_key_temp (op : operation) (x : string) :
  "temp_webdav_message_" +:+ x ≠ status_key op.
Proof. apply temp_key_neq. by destruct op. Qed.

Lemma eqb_temp_status (op : operation) (x : string) :
  String.eqb ("temp_webdav_message_" +:+ x) (status_key op) = false.
Proof. apply String.eqb_neq, status_key_temp. Qed.

Lemma read_keys_lookup (keys : list string) (s : gmap string json) (k : string) :
  k ∈ keys → read_keys keys s !! k = s !! k.
Proof.
  induction keys as [|k' keys IH]; [by intros ?%elem_of_nil|].
  simpl. destruct (decide (k = k')) as [->|Hne].
  - intros _. destruct (s !! k') as [v|] eqn:E.
    + by rewrite lookup_insert_eq.
    + destruct (decide (k' ∈ keys)) as [Hin|Hout]; [by rewrite IH|].
      clear IH. induction keys as [|k2 keys IH2]; [done|].
      simpl. apply not_elem_of_cons in Hout as [Hne Hout].
      destruct (s !! k2); [rewrite lookup_insert_ne; auto|auto].
  - intros [?|Hin]%elem_of_cons; [done|].
    destruct (s !! k'); [rewrite lookup_insert_ne|]; auto.
Qed.

Lemma stored_or_empty_read_keys (keys : list string) (s : gmap string json) (k : string) :
  k ∈ keys → stored_or_empty (read_keys keys s) k = stored_or_empty s k.
Proof. intros H. unfold stored_or_empty. by rewrite read_keys_lookup. Qed.

Lemma temp_neq_prompts x : "temp_webdav_message_" +:+ x ≠ BROWSER_STORAGE_KEY.
Proof. by apply collection_key_temp. Qed.

Lemma temp_neq_categories x : "temp_webdav_message_" +:+ x ≠ CATEGORIES_STORAGE_KEY.
Proof. by apply collection_key_temp. Qed.

Lemma temp_neq_push x : "temp_webdav_message_" +:+ x ≠ "webdav_sync_status".
Proof. apply (status_key_temp Push). Qed.

Lemma temp_neq_pull x : "temp_webdav_message_" +:+ x ≠ "webdav_from_sync_status".
Proof. apply (status_key_temp (Pull replace)). Qed.

Lemma push_neq_prompts : "webdav_sync_status" ≠ BROWSER_STORAGE_KEY.
Proof. by apply (collection_key_status Push). Qed.

Lemma push_neq_categories : "webdav_sync_status" ≠ CATEGORIES_STORAGE_KEY.
Proof. by apply (collection_key_status Push). Qed.

Lemma pull_neq_prompts : "webdav_from_sync_status" ≠ BROWSER_STORAGE_KEY.
Proof. by apply (collection_key_status (Pull replace)). Qed.

Lemma pull_neq_categories : "webdav_from_sync_status" ≠ CATEGORIES_STORAGE_KEY.
Proof. by apply (collection_key_status (Pull replace)). Qed.

Lemma categories_neq_prompts : CATEGORIES_STORAGE_KEY ≠ BROWSER_STORAGE_KEY.
Proof. intros E. by apply keys_differ. Qed.

Ltac other_key :=
  first [ apply temp_neq_prompts | apply temp_neq_categories | apply temp_neq_push
        | apply temp_neq_pull | apply push_neq_prompts | apply push_neq_categories
        | apply pull_neq_prompts | apply pull_neq_categories
        | apply categories_neq_prompts | apply keys_differ | discriminate ].

(** Reads what is stored under a key through the writes of a run. *)
Ltac lookups :=
  repeat first [ rewrite lookup_insert_eq | rewrite lookup_insert_ne by other_key ].

Lemma status_at_lookup (k : string) (w : world) (fields : list (string * json)) (v : jsval) :
  storage w !! k = Some (JObj fields) → assoc "status" fields = v → status_at k w = v.
Proof. unfold status_at. by intros -> <-. Qed.

(** ** The connectivity test *)

Lemma run_testWebDAVConnection env w url user pass :
  let rq := propfind_request url user pass in
  (run env (testWebDAVConnection url user pass) w).2 =
  inr match net env (trace w) rq with
      | inr r =>
          if ok r || (status r =? 207)%N then ConnectionResult true None
          else if (status r =? 401)%N then
            ConnectionResult false (Some (t "webdavAuthFailed"))
          else ConnectionResult false
                 (Some (t "webdavConnectionFailed" +:+ ": " +:+ digits (status r)))
      | inl e => ConnectionResult false (Some (str_or (message e) (t "testConnectionError")))
      end.
Proof.
  intros rq. unfold testWebDAVConnection. fold (propfind_request url user pass). fold rq. cbn.
  destruct (net env (trace w) rq) as [e|r]; cbn; [reflexivity|].
  destruct (ok r || (status r =? 207)%N); cbn; [reflexivity|].
  destruct (status r =? 401)%N; reflexivity.
Qed.


(** ** Refusals *)

Lemma not_configured (c : component) :
  serverUrl c = "" ∨ username c = "" ∨ password c = "" → configured c = false.
Proof.
  unfold configured, str_truthy. intros [-> | [-> | ->]]; simpl;
    [done | by rewrite andb_false_r | by rewrite andb_false_r].
Qed.

(** A toast touches neither the network nor a status record. *)
Lemma showMessage_quiet env w type txt :
  let r := run env (showMessage type txt) w in
  r.2 = inr ()
  ∧ testMessage (comp r.1) = Some (type, txt)
  ∧ currentSyncId (comp r.1) = currentSyncId (comp w)
  ∧ requests (trace r.1) = requests (trace w)
  ∧ (∀ op, written (status_key op) (trace r.1) = written (status_key op) (trace w))
  ∧ (∀ k, String.prefix "temp_webdav_message_" k = false →
          storage r.1 !! k = storage w !! k).
Proof.
  destruct w as [s c tm nt tr]. unfold showMessage.
  destruct type; cbn; repeat split; try reflexivity; intros.
  all: try (by rewrite eqb_temp_status).
  all: by rewrite lookup_insert_ne by by apply temp_key_neq.
Qed.

(** C9. A push or a pull whose server URL, user name or password is empty
    ends at once with the not-configured error shown: it issues no
    request, passes no record to storage under either status key, and
    leaves both status keys as they were. *)
Theorem unconfigured_sync_is_refused env w op :
  serverUrl (comp w) = "" ∨ username (comp w) = "" ∨ password (comp w) = "" →
  let r := invoke env (handler op) w in
  r.2 = inr ()
  ∧ testMessage (comp r.1) = Some (MsgError, t "webdavNotConfigured")
  ∧ requests (trace r.1) = requests (trace w)
  ∧ (∀ op', written (status_key op') (trace r.1) = written (status_key op') (trace w))
  ∧ (∀ op', storage r.1 !! status_key op' = storage w !! status_key op').
Proof.
  intros Hc%not_configured r. subst r. unfold invoke.
  assert (handler op (comp w) = showMessage MsgError (t "webdavNotConfigured")) as ->.
  { destruct op as [|m]; simpl; unfold handleSyncToWebDAV, syncFromWebDAV;
      by rewrite Hc. }
  destruct (showMessage_quiet env w MsgError (t "webdavNotConfigured"))
    as (H1 & H2 & _ & H4 & H5 & H6).
  repeat split; auto. intros op'. apply H6. by destruct op'.
Qed.


(** ** Merging by identifier *)

Lemma record_prop_id (p : json) (i : string) :
  record_id p = Some i → prop p "id" = inr (Some (JStr i)).
Proof.
  destruct p as [| | | | |fields]; try discriminate. simpl.
  destruct (assoc "id" fields) as [[]|]; try discriminate. by intros [= ->].
Qed.

(** The identifier set of a list of records holds their identifiers. *)
Lemma id_set_records (name : string) (local : list json) :
  Forall is_record local →
  id_set name (JArr local) = inr ((fun p => JStr <$> record_id p) <$> local).
Proof.
  simpl. induction 1 as [|p local [i Hi] _ IH]; [done|].
  simpl. rewrite (record_prop_id p i Hi), IH. simpl. by rewrite Hi.
Qed.

Lemma set_has_records (local : list json) (i : string) :
  set_has ((fun p => JStr <$> record_id p) <$> local) (Some (JStr i)) = true
  ↔ Some i ∈ record_id <$> local.
Proof.
  unfold set_has. induction local as [|p local IH]; simpl.
  - split; [done|by intros ?%elem_of_nil].
  - rewrite orb_true_iff, IH, elem_of_cons.
    assert (same_value_zero (Some (JStr i)) (JStr <$> record_id p) = true
            ↔ Some i = record_id p) as ->; [|done].
    destruct (record_id p) as [j|]; simpl; [|done].
    rewrite String.eqb_eq. split; congruence.
Qed.

Lemma filter_new_records (name : string) (local downloaded : list json) :
  Forall is_record downloaded →
  filter_new name ((fun p => JStr <$> record_id p) <$> local) (Some (JArr downloaded))
  = inr (filter (fun p => record_id p ∉ record_id <$> local) downloaded).
Proof.
  simpl. induction 1 as [|p downloaded [i Hi] _ IH]; [done|].
  simpl. rewrite (record_prop_id p i Hi), IH. simpl. f_equal.
  rewrite filter_cons. rewrite Hi.
  destruct (set_has _ _) eqn:E; simpl.
  - apply set_has_records in E. by rewrite decide_False by auto.
  - rewrite decide_True; [done|].
    intros Hin%set_has_records. congruence.
Qed.

(** The merge of the source computes the merge of the specification. *)
Lemma merge_append_records (lname rname : string) (local downloaded : list json) :
  Forall is_record local → Forall is_record downloaded →
  merge_append lname rname (JArr local) (Some (JArr downloaded))
  = inr (JArr (append_spec local downloaded)).
Proof.
  intros Hl Hd. unfold merge_append.
  rewrite id_set_records by done. cbn [ebind].
  by rewrite filter_new_records.
Qed.

Lemma append_spec_NoDup (local downloaded : list json) :
  NoDup (record_id <$> local) → NoDup (record_id <$> downloaded) →
  NoDup (record_id <$> append_spec local downloaded).
Proof.
  intros Hl Hd. unfold append_spec. rewrite fmap_app.
  apply NoDup_app. split; [done|]. split.
  - intros x Hx (p & -> & [Hp _]%list_elem_of_filter)%list_elem_of_fmap. done.
  - apply (sublist_NoDup _ _ Hd), fmap_sublist, sublist_filter.
Qed.

(** ** Pull *)

#[local] Arguments merge_append : simpl never.
#[local] Arguments stored_or_empty : simpl never.
#[local] Arguments read_keys : simpl never.
#[local] Arguments dir_of : simpl never.
#[local] Arguments strip_trailing_slash : simpl never.

(** Splits the world and the component into their fields, so that the
    handler evaluates step by step. *)
Ltac open_world w :=
  let s := fresh "s" in let c := fresh "c" in
  destruct w as [s c ? ? ?];
  destruct c as [? ? ? ? ? ? ? ?]; cbn in *.

Ltac pull_steps Hnet Hok Hparse Hprompts :=
  unfold invoke, syncFromWebDAV, showMessage, download_request, response_json in *;
  cbn in *;
  match goal with H : configured _ = true |- _ => rewrite H end;
  match goal with H : sync_running _ = false |- _ => rewrite H end;
  cbn; rewrite Hnet; cbn; rewrite Hok; cbn; rewrite Hparse; cbn;
  rewrite Hprompts; cbn.

Lemma answers_always env tr rq a : answers env rq a → answers_after env tr rq a.
Proof. intros H evs _. apply H. Qed.


Lemma syncFromWebDAV_replace_run env w r D P cats :
  ready (comp w) →
  answers_after env (trace w) (download_request (comp w)) (inr r) →
  ok r = true →
  JSON_parse (text r) = Some D →
  prop D "prompts" = inr (Some (JArr P)) →
  prop D "categories" = inr cats →
  let res := invoke env (syncFromWebDAV replace) w in
  res.2 = inr ()
  ∧ storage res.1 !! BROWSER_STORAGE_KEY = Some (JArr P)
  ∧ storage res.1 !! CATEGORIES_STORAGE_KEY = Some (js_or cats (JArr []))
  ∧ (∃ id time, storage res.1 !! "webdav_from_sync_status" =
       status_record id "success" (t "syncFromWebDAVSuccess") "completedTime" time)
  ∧ testMessage (comp res.1) = Some (MsgSuccess, t "syncFromWebDAVSuccess").
Proof.
  intros [Hc Hi] Hnet Hok Hparse Hp Hcats. unfold answers_after in Hnet.
  open_world w.
  all: unfold invoke, syncFromWebDAV, showMessage, download_request, response_json in *;
    cbn in *; rewrite Hc, Hi; cbn.
  all: match goal with
       | |- context [net _ (?e1 :: ?e2 :: ?e3 :: _) _] =>
           let Hn := fresh in
           pose proof (Hnet [e1; e2; e3] eq_refl) as Hn; cbn in Hn; rewrite Hn; clear Hn
       end; cbn.
  all: rewrite Hok; cbn; rewrite Hparse; cbn; rewrite Hp; cbn; rewrite Hcats; cbn.
  all: repeat split; try reflexivity; try (lookups; reflexivity).
  all: do 2 eexists; lookups; reflexivity.
Qed.

(** C4, as amended. After a pull in replace mode whose download is
    answered ok with a document whose [prompts] is an array, the stored
    prompts are that array; the stored categories are the document's
    [categories] when that value is truthy, and the empty sequence when
    the document has no [categories] or a falsy one. *)
Theorem replace_overwrites_collections env w r D P :
  ready (comp w) →
  answers env (download_request (comp w)) (inr r) →
  ok r = true →
  JSON_parse (text r) = Some D →
  prop D "prompts" = inr (Some (JArr P)) →
  let w' := (invoke env (syncFromWebDAV replace) w).1 in
  storage w' !! BROWSER_STORAGE_KEY = Some (JArr P)
  ∧ (∀ c, prop D "categories" = inr (Some c) → truthy (Some c) = true →
          storage w' !! CATEGORIES_STORAGE_KEY = Some c)
  ∧ (∀ cats, prop D "categories" = inr cats → truthy cats = false →
          storage w' !! CATEGORIES_STORAGE_KEY = Some (JArr [])).
Proof.
  intros Hr Hnet Hok Hparse Hp w'. subst w'.
  split; [|split].
  - assert (∃ cats, prop D "categories" = inr cats) as [cats Hcats]
      by (destruct D; try discriminate; eauto).
    destruct (syncFromWebDAV_replace_run env w r D P cats) as (_ & H & _);
      auto using answers_always.
  - intros c Hcats Ht.
    destruct (syncFromWebDAV_replace_run env w r D P (Some c)) as (_ & _ & H & _);
      auto using answers_always.
    rewrite H. unfold js_or. by rewrite Ht.
  - intros cats Hcats Ht.
    destruct (syncFromWebDAV_replace_run env w r D P cats) as (_ & _ & H & _);
      auto using answers_always.
    rewrite H. unfold js_or. destruct cats; [by rewrite Ht|done].
Qed.

(** C10. Only [prompts] is checked. After a pull in replace mode whose
    download is answered ok with a document whose [prompts] is an array
    and whose [categories] is truthy and not an array, the pull ends
    without an error, shows the success message, marks its status record
    as success and stores that [categories] value as it is. *)
Theorem replace_stores_categories_unchecked env w r D P c :
  ready (comp w) →
  answers env (download_request (comp w)) (inr r) →
  ok r = true →
  JSON_parse (text r) = Some D →
  prop D "prompts" = inr (Some (JArr P)) →
  prop D "categories" = inr (Some c) →
  truthy (Some c) = true →
  isArray (Some c) = false →
  let res := invoke env (syncFromWebDAV replace) w in
  res.2 = inr ()
  ∧ testMessage (comp res.1) = Some (MsgSuccess, t "syncFromWebDAVSuccess")
  ∧ status_at "webdav_from_sync_status" res.1 = Some (JStr "success")
  ∧ storage res.1 !! CATEGORIES_STORAGE_KEY = Some c.
Proof.
  intros Hr Hnet Hok Hparse Hp Hcats Ht _ res. subst res.
  destruct (syncFromWebDAV_replace_run env w r D P (Some c))
    as (H1 & _ & H3 & (id & time & H4) & H5); auto using answers_always.
  repeat split; try done.
  - by eapply status_at_lookup.
  - rewrite H3. unfold js_or. by rewrite Ht.
Qed.

Lemma local_collection (s : gmap string json) (k : string) (v : json) :
  collection_key k = true →
  k ∈ [BROWSER_STORAGE_KEY; CATEGORIES_STORAGE_KEY] →
  stored_or_empty
    (read_keys [BROWSER_STORAGE_KEY; CATEGORIES_STORAGE_KEY]
       (<["webdav_from_sync_status" := v]> s)) k
  = stored_or_empty s k.
Proof.
  intros Hk Hin. rewrite stored_or_empty_read_keys by done.
  unfold stored_or_empty. rewrite lookup_insert_ne; [done|].
  by apply (collection_key_status (Pull replace)).
Qed.

Lemma syncFromWebDAV_append_run env w r D Dp cats Dc L Lc :
  ready (comp w) →
  answers env (download_request (comp w)) (inr r) →
  ok r = true →
  JSON_parse (text r) = Some D →
  prop D "prompts" = inr (Some (JArr Dp)) →
  prop D "categories" = inr cats →
  js_or cats (JArr []) = JArr Dc →
  stored_or_empty (storage w) BROWSER_STORAGE_KEY = JArr L →
  stored_or_empty (storage w) CATEGORIES_STORAGE_KEY = JArr Lc →
  Forall is_record L → Forall is_record Dp →
  Forall is_record Lc → Forall is_record Dc →
  let res := invoke env (syncFromWebDAV append) w in
  res.2 = inr ()
  ∧ storage res.1 !! BROWSER_STORAGE_KEY = Some (JArr (append_spec L Dp))
  ∧ storage res.1 !! CATEGORIES_STORAGE_KEY = Some (JArr (append_spec Lc Dc))
  ∧ (∃ id time, storage res.1 !! "webdav_from_sync_status" =
       status_record id "success" (t "syncFromWebDAVSuccess") "completedTime" time).
Proof.
  intros [Hc Hi] Hnet Hok Hparse Hp Hcats Hdc HL HLc RL RDp RLc RDc.
  unfold answers in Hnet.
  open_world w; pull_steps Hnet Hok Hparse Hp.
  all: rewrite !local_collection by (done || set_solver).
  all: rewrite HL, HLc, (merge_append_records _ _ L Dp) by done; cbn.
  all: rewrite Hcats; cbn.
  all: rewrite Hdc, (merge_append_records _ _ Lc Dc) by done; cbn.
  all: repeat split; try reflexivity; try (lookups; reflexivity).
  all: do 2 eexists; lookups; reflexivity.
Qed.

Lemma categories_or_empty_js_or (D : json) (prompts : json) (Dc : list json) :
  prop D "prompts" = inr (Some prompts) →
  categories_or_empty D = JArr Dc →
  ∃ cats, prop D "categories" = inr cats ∧ js_or cats (JArr []) = JArr Dc.
Proof.
  destruct D as [| | | | |fields]; try discriminate. simpl. intros _ H.
  exists (assoc "categories" fields). split; [done|].
  destruct (assoc "categories" fields) as [v|]; by subst.
Qed.

(** C1. Append mode. Let the local prompts be the list [L] and the local
    categories the list [Lc] (a key that is not stored counts as the empty
    list), and let the download be answered ok with a document whose
    prompts are the list [Dp] and whose categories are the list [Dc] (the
    empty list when the document has none), all entries being records
    with a string id. After the pull the stored prompts are [L] followed
    by the entries of [Dp] whose id is not the id of an entry of [L], in
    the order of [Dp]; the stored categories are built from [Lc] and [Dc]
    in the same way. *)
Theorem append_keeps_local_then_new env w r D Dp Dc L Lc :
  ready (comp w) →
  answers env (download_request (comp w)) (inr r) →
  ok r = true →
  JSON_parse (text r) = Some D →
  prop D "prompts" = inr (Some (JArr Dp)) →
  categories_or_empty D = JArr Dc →
  stored_or_empty (storage w) BROWSER_STORAGE_KEY = JArr L →
  stored_or_empty (storage w) CATEGORIES_STORAGE_KEY = JArr Lc →
  Forall is_record L → Forall is_record Dp →
  Forall is_record Lc → Forall is_record Dc →
  let w' := (invoke env (syncFromWebDAV append) w).1 in
  storage w' !! BROWSER_STORAGE_KEY
    = Some (JArr (L ++ filter (fun p => record_id p ∉ record_id <$> L) Dp))
  ∧ storage w' !! CATEGORIES_STORAGE_KEY
    = Some (JArr (Lc ++ filter (fun p => record_id p ∉ record_id <$> Lc) Dc)).
Proof.
  intros Hr Hnet Hok Hparse Hp Hdc HL HLc RL RDp RLc RDc w'. subst w'.
  destruct (categories_or_empty_js_or D _ Dc Hp Hdc) as (cats & Hcats & Hor).
  destruct (syncFromWebDAV_append_run env w r D Dp cats Dc L Lc)
    as (_ & H1 & H2 & _); done.
Qed.

(** C8, as amended. Under the conditions of append mode, when the ids
    are unique within the local prompts, within the local categories,
    within the downloaded prompts and within the downloaded categories,
    no two entries of the stored prompts share an id, and no two entries
    of the stored categories do. *)
Theorem append_keeps_ids_unique env w r D Dp Dc L Lc :
  ready (comp w) →
  answers env (download_request (comp w)) (inr r) →
  ok r = true →
  JSON_parse (text r) = Some D →
  prop D "prompts" = inr (Some (JArr Dp)) →
  categories_or_empty D = JArr Dc →
  stored_or_empty (storage w) BROWSER_STORAGE_KEY = JArr L →
  stored_or_empty (storage w) CATEGORIES_STORAGE_KEY = JArr Lc →
  Forall is_record L → Forall is_record Dp →
  Forall is_record Lc → Forall is_record Dc →
  NoDup (record_id <$> L) → NoDup (record_id <$> Dp) →
  NoDup (record_id <$> Lc) → NoDup (record_id <$> Dc) →
  let w' := (invoke env (syncFromWebDAV append) w).1 in
  ∃ M Mc,
    storage w' !! BROWSER_STORAGE_KEY = Some (JArr M)
    ∧ storage w' !! CATEGORIES_STORAGE_KEY = Some (JArr Mc)
    ∧ NoDup (record_id <$> M) ∧ NoDup (record_id <$> Mc).
Proof.
  intros Hr Hnet Hok Hparse Hp Hdc HL HLc RL RDp RLc RDc NL NDp NLc NDc w'. subst w'.
  destruct (categories_or_empty_js_or D _ Dc Hp Hdc) as (cats & Hcats & Hor).
  destruct (syncFromWebDAV_append_run env w r D Dp cats Dc L Lc)
    as (_ & H1 & H2 & _); try done.
  exists (append_spec L Dp), (append_spec Lc Dc).
  repeat split; auto using append_spec_NoDup.
Qed.

(** ** Failed downloads *)

Ltac fail_steps Hnet :=
  unfold invoke, syncFromWebDAV, showMessage, download_request, response_json in *;
  cbn in *;
  match goal with H : configured _ = true |- _ => rewrite H end;
  match goal with H : sync_running _ = false |- _ => rewrite H end;
  cbn; rewrite Hnet; cbn.

(** What a pull shows when its download is refused or its document is
    not accepted, in either mode. *)
Lemma syncFromWebDAV_download_errors env w m r :
  ready (comp w) →
  answers env (download_request (comp w)) (inr r) →
  let shown := testMessage (comp (invoke env (syncFromWebDAV m) w).1) in
  let failed why := Some (MsgError, t "syncFromWebDAVFailed" +:+ ": " +:+ why) in
  (status r = 404%N → shown = failed (t "webdavFileNotFound"))
  ∧ (ok r = false → status r ≠ 404%N → shown = failed ("HTTP " +:+ digits (status r)))
  ∧ (∀ D prompts, ok r = true → JSON_parse (text r) = Some D →
       prop D "prompts" = inr prompts →
       truthy prompts = false ∨ isArray prompts = false →
       shown = failed (t "invalidWebDAVDataFormat")).
Proof.
  intros [Hc Hi] Hnet. unfold answers in Hnet. cbn zeta. repeat split.
  - intros H404. assert (ok r = false) as Hok by (unfold ok; by rewrite H404).
    destruct m; open_world w; fail_steps Hnet; rewrite Hok, H404; reflexivity.
  - intros Hok Hne%N.eqb_neq.
    destruct m; open_world w; fail_steps Hnet; rewrite Hok; cbn; rewrite Hne; reflexivity.
  - intros D prompts Hok Hparse Hp Hbad.
    assert (negb (truthy prompts) || negb (isArray prompts) = true) as Hv.
    { destruct Hbad as [-> | ->]; [done|by rewrite orb_true_r]. }
    destruct m; open_world w; fail_steps Hnet; rewrite Hok; cbn; rewrite Hparse; cbn;
      rewrite Hp; cbn; rewrite Hv; reflexivity.
Qed.

(** The document [null] is refused before its [prompts] can be checked:
    reading the property throws. *)
Lemma syncFromWebDAV_null_document env w m r :
  ready (comp w) →
  answers env (download_request (comp w)) (inr r) →
  ok r = true →
  JSON_parse (text r) = Some JNull →
  testMessage (comp (invoke env (syncFromWebDAV m) w).1)
  = Some (MsgError, t "syncFromWebDAVFailed" +:+ ": " +:+
                    "Cannot read properties of null (reading 'prompts')").
Proof.
  intros [Hc Hi] Hnet Hok Hparse. unfold answers in Hnet.
  destruct m; open_world w; fail_steps Hnet; rewrite Hok; cbn; rewrite Hparse; reflexivity.
Qed.

(** A refused download leaves the status record of the pull as it was
    written at the start. *)
Lemma refused_download_keeps_in_progress env w m r :
  ready (comp w) →
  answers env (download_request (comp w)) (inr r) →
  ok r = false →
  ∃ id msg time,
    storage (invoke env (syncFromWebDAV m) w).1 !! "webdav_from_sync_status"
    = status_record id "in_progress" msg "startTime" time.
Proof.
  intros [Hc Hi] Hnet Hok. unfold answers in Hnet.
  destruct (status r =? 404)%N eqn:E.
  all: destruct m; open_world w; fail_steps Hnet; rewrite Hok; cbn; rewrite E; cbn.
  all: do 3 eexists; lookups; reflexivity.
Qed.

(** ** Push *)

Lemma local_collection_push (s : gmap string json) (k : string) (v : json) :
  collection_key k = true →
  k ∈ [BROWSER_STORAGE_KEY; CATEGORIES_STORAGE_KEY] →
  stored_or_empty
    (read_keys [BROWSER_STORAGE_KEY; CATEGORIES_STORAGE_KEY]
       (<["webdav_sync_status" := v]> s)) k
  = stored_or_empty s k.
Proof.
  intros Hk Hin. rewrite stored_or_empty_read_keys by done.
  unfold stored_or_empty. rewrite lookup_insert_ne; [done|].
  by apply (collection_key_status Push).
Qed.



(** A refused upload leaves the status record of the push as it was
    written at the start, and shows the status of the answer. *)
Lemma refused_upload_keeps_in_progress env w r :
  ready (comp w) →
  (∀ tr doc, net env tr (upload_request (comp w) doc) = inr r) →
  ok r = false →
  let w' := (invoke env handleSyncToWebDAV w).1 in
  testMessage (comp w')
  = Some (MsgError, t "syncToWebDAVFailed" +:+ ": " +:+ "HTTP " +:+ digits (status r))
  ∧ ∃ id msg time,
      storage w' !! "webdav_sync_status" = status_record id "in_progress" msg "startTime" time.
Proof.
  intros [Hc Hi] Hput Hok.
  assert (ok r || (status r =? 201)%N || (status r =? 204)%N = false) as Hno.
  { rewrite Hok. simpl. unfold ok in Hok.
    destruct (status r =? 201)%N eqn:E1; [apply N.eqb_eq in E1; by rewrite E1 in Hok|].
    destruct (status r =? 204)%N eqn:E2; [apply N.eqb_eq in E2; by rewrite E2 in Hok|].
    done. }
  destruct (str_truthy (dir_of (syncPath (comp w)))) eqn:Hdir.
  all: destruct w as [s c tm nt tr]; destruct c as [su un pw sp tmsg cs mt it].
  all: unfold upload_request in Hput; cbn in Hput.
  all: split; [|do 3 eexists].
  all: unfold invoke, handleSyncToWebDAV; cbv zeta;
    rewrite Hc, Hi, Hdir; unfold showMessage; cbn;
    rewrite ?local_collection_push by (done || set_solver);
    rewrite Hput; cbn; rewrite Hno; cbn.
  all: try reflexivity.
  all: lookups; reflexivity.
Qed.




End Properties.

(** * Further properties *)

(** ** Programs in sequence *)

Lemma run_bind env {A B} (p : prog A) (f : A → prog B) w :
  run env (bind p f) w =
  match (run env p w).2 with
  | inr a => run env (f a) (run env p w).1
  | inl e => ((run env p w).1, inl e)
  end.
Proof. revert w. induction p as [a|e|X e k IH]; intros w; simpl; [done..|apply IH]. Qed.

Lemma run_try_catch env {A} (p : prog A) (h : js_error → prog A) w :
  run env (try_catch p h) w =
  match (run env p w).2 with
  | inr a => ((run env p w).1, inr a)
  | inl e => run env (h e) (run env p w).1
  end.
Proof. revert w. induction p as [a|e|X e k IH]; intros w; simpl; [done..|apply IH]. Qed.

Section Keeps.

Context (R : world → world → Prop) `{!PreOrder R}.

Lemma keeps_ret {A} (a : A) : keeps R (Ret a).
Proof. intros env w. reflexivity. Qed.

Lemma keeps_throw {A} (e : js_error) : keeps R (@Throw A e).
Proof. intros env w. reflexivity. Qed.

Lemma keeps_bind {A B} (p : prog A) (f : A → prog B) :
  keeps R p → (∀ a, keeps R (f a)) → keeps R (bind p f).
Proof.
  intros Hp Hf env w. rewrite run_bind. specialize (Hp env w).
  destruct (run env p w) as [w1 [e|a]]; simpl in *; [done|].
  etrans; [exact Hp|apply Hf].
Qed.

Lemma keeps_try_catch {A} (p : prog A) (h : js_error → prog A) :
  keeps R p → (∀ e, keeps R (h e)) → keeps R (try_catch p h).
Proof.
  intros Hp Hh env w. rewrite run_try_catch. specialize (Hp env w).
  destruct (run env p w) as [w1 [e|a]]; simpl in *; [|done].
  etrans; [exact Hp|apply Hh].
Qed.

Lemma keeps_perform {X} (e : eff X) :
  (∀ env w, R w (do_eff env e w).1) → keeps R (perform e).
Proof. intros H env w. apply H. Qed.

Lemma keeps_await {A} (p : prog (js_error + A)) : keeps R p → keeps R (await p).
Proof. intros Hp. apply keeps_bind; [done|]. intros [e|a]; [apply keeps_throw|apply keeps_ret]. Qed.

Lemma keeps_lift {A} (r : js_error + A) : keeps R (lift r).
Proof. destruct r; [apply keeps_throw|apply keeps_ret]. Qed.

End Keeps.

#[local] Instance same_at_preorder k : PreOrder (same_at k).
Proof. split; [done|]. intros x y z H1 H2. unfold same_at in *. congruence. Qed.

#[local] Instance sent_only_preorder Q : PreOrder (sent_only Q).
Proof.
  split.
  - intros w. exists []. by split.
  - intros x y z (n1 & E1 & F1) (n2 & E2 & F2). exists (n2 ++ n1)%list.
    split; [by rewrite E2, E1, app_assoc|by apply Forall_app].
Qed.


(** A timer that was cleared is no longer armed. *)
Lemma find_timer_removed (id : nat) (tms : list (nat * timer)) :
  find_timer id (remove_timer (Some id) tms) = None.
Proof.
  unfold remove_timer. induction tms as [|[i tm] tms IH]; [done|]. simpl.
  destruct (Nat.eqb i id) eqn:E; simpl; [exact IH|]. by rewrite E.
Qed.

(** Walks a program along its binds and branches. [eff] solves an effect,
    [sub] a call of a function of the component. *)
Ltac walk sub eff :=
  repeat lazymatch goal with
  | |- keeps _ (let _ := _ in _) => cbv zeta
  | |- keeps _ (bind _ _) => apply keeps_bind; [typeclasses eauto| |intros ?]
  | |- keeps _ (try_catch _ _) => apply keeps_try_catch; [typeclasses eauto| |intros ?]
  | |- keeps _ (Ret _) => apply keeps_ret; typeclasses eauto
  | |- keeps _ (Throw _) => apply keeps_throw; typeclasses eauto
  | |- keeps _ (lift _) => apply keeps_lift; typeclasses eauto
  | |- keeps _ (await _) => apply keeps_await; [typeclasses eauto|]
  | |- keeps _ (perform _) => apply keeps_perform; intros ? ?; eff
  | |- keeps _ (if ?b then _ else _) => destruct b
  | |- keeps _ (match ?x with _ => _ end) => destruct x
  | |- keeps _ _ => sub
  end.

Section Merging.

Context `{platform : Platform}.

(** ** URLs *)

Lemma strip_trailing_slash_app (u : string) : strip_trailing_slash (u +:+ "/") = u.
Proof.
  induction u as [|c u IH]; [reflexivity|].
  change (String c u +:+ "/") with (String c (u +:+ "/")).
  assert (∀ x, x ≠ "" →
               strip_trailing_slash (String c x) = String c (strip_trailing_slash x)) as E.
  { intros [|??] ?; done. }
  rewrite E, IH; [done|]. by destruct u.
Qed.

Lemma strip_trailing_slash_id (u : string) :
  ends_with_slash u = false → strip_trailing_slash u = u.
Proof.
  induction u as [|c u IH]; [reflexivity|]. simpl.
  destruct u as [|c' u']; [by intros ->|].
  intros H. by rewrite IH.
Qed.

(** X1. The URL of the synced file is the server URL followed by the sync
    path, after one slash at the end of the server URL, if there is one,
    has been dropped; a second slash stays. *)
Theorem fullPath_drops_one_trailing_slash (c : component) :
  (∀ u, serverUrl c = u +:+ "/" → fullPath c = u +:+ syncPath c)
  ∧ (ends_with_slash (serverUrl c) = false → fullPath c = serverUrl c +:+ syncPath c).
Proof.
  unfold fullPath. split.
  - intros u ->. by rewrite strip_trailing_slash_app.
  - intros H. by rewrite strip_trailing_slash_id.
Qed.

Lemma lastIndexOf_slash_none_app (f : string) (n m : nat) :
  lastIndexOf_slash f n = None → lastIndexOf_slash f m = None.
Proof.
  revert n m. induction f as [|c f IH]; [done|]. intros n m. simpl.
  destruct (lastIndexOf_slash f (S n)) eqn:E; [done|].
  rewrite (IH _ (S m) E). by destruct (Ascii.eqb c "/").
Qed.

Lemma lastIndexOf_slash_last (d f : string) (n : nat) :
  lastIndexOf_slash f 0 = None →
  lastIndexOf_slash (d +:+ "/" +:+ f) n = Some (n + String.length d).
Proof.
  intros Hf. revert n. induction d as [|c d IH]; intros n.
  - change ("" +:+ "/" +:+ f) with (String "/" f). simpl.
    rewrite (lastIndexOf_slash_none_app f 0 (S n) Hf). f_equal. lia.
  - change (String c d +:+ "/" +:+ f) with (String c (d +:+ "/" +:+ f)). simpl.
    rewrite IH. f_equal. lia.
Qed.

Lemma substring_app (d x : string) : substring 0 (String.length d) (d +:+ x) = d.
Proof.
  induction d as [|c d IH]; simpl; [by destruct x|]. by rewrite IH.
Qed.

(** X2. The directory that a push creates first is the sync path up to
    its last slash: [d] for the path [d/f] when [f] has no slash, and none
    (the empty string) for a path without a slash. *)
Theorem dir_of_last_slash (d f : string) :
  lastIndexOf_slash f 0 = None →
  dir_of (d +:+ "/" +:+ f) = d ∧ dir_of f = "".
Proof.
  intros Hf. unfold dir_of. rewrite Hf, lastIndexOf_slash_last by done. simpl.
  split; [apply substring_app|done].
Qed.

(** ** Merging entries of any shape *)

Lemma prop_not_null (p : json) (k : string) : p ≠ JNull → ∃ v, prop p k = inr v.
Proof. destruct p; intros; try done; by eexists. Qed.

Lemma id_set_not_null (name : string) (L : list json) :
  JNull ∉ L →
  ∃ ids, id_set name (JArr L) = inr ids
         ∧ Forall2 (λ q i, prop q "id" = inr i) L ids.
Proof.
  simpl. induction L as [|q L IH]; intros Hn; [by exists []|].
  apply not_elem_of_cons in Hn as [Hq Hn].
  destruct (prop_not_null q "id") as [i Hi]; [done|].
  destruct (IH Hn) as (ids & E & F). exists (i :: ids). simpl.
  rewrite Hi, E. split; [done|by constructor].
Qed.

Lemma set_has_same_id (p : json) (i : jsval) (L : list json) (ids : list jsval) :
  prop p "id" = inr i →
  Forall2 (λ q j, prop q "id" = inr j) L ids →
  set_has ids i = existsb (same_id p) L.
Proof.
  intros Hp. unfold set_has. induction 1 as [|q j L ids Hq _ IH]; [done|].
  simpl. rewrite IH. f_equal. unfold same_id. by rewrite Hp, Hq.
Qed.

Lemma filter_new_not_null (name : string) (L D : list json) (ids : list jsval) :
  Forall2 (λ q j, prop q "id" = inr j) L ids →
  JNull ∉ D →
  filter_new name ids (Some (JArr D))
  = inr (List.filter (λ p, negb (existsb (same_id p) L)) D).
Proof.
  intros HL. simpl. induction D as [|p D IH]; intros Hn; [done|].
  apply not_elem_of_cons in Hn as [Hp Hn].
  destruct (prop_not_null p "id") as [i Hi]; [done|].
  simpl. rewrite Hi, (IH Hn). simpl.
  by rewrite (set_has_same_id p i L ids Hi HL).
Qed.

Lemma merge_append_not_null (lname rname : string) (L D : list json) :
  JNull ∉ L → JNull ∉ D →
  merge_append lname rname (JArr L) (Some (JArr D))
  = inr (JArr (L ++ List.filter (λ p, negb (existsb (same_id p) L)) D)).
Proof.
  intros HL HD. unfold merge_append.
  destruct (id_set_not_null lname L HL) as (ids & -> & F). cbn [ebind].
  by rewrite (filter_new_not_null rname L D ids F HD).
Qed.

(** X8. Merging by identifier, for entries of any shape other than
    [null]: the result is the local entries followed by the downloaded
    entries whose [id] is not the [id] of a local entry, in the order of
    the download. Ids compare as in a [Set]: a missing [id] equals a
    missing [id], a number never equals a string. *)
Theorem merge_append_keeps_local_first (lname rname : string) (L D : list json) :
  JNull ∉ L → JNull ∉ D →
  merge_append lname rname (JArr L) (Some (JArr D))
  = inr (JArr (L ++ List.filter (λ p, negb (existsb (same_id p) L)) D)).
Proof.
  intros HL HD. unfold merge_append.
  destruct (id_set_not_null lname L HL) as (ids & -> & F). cbn [ebind].
  by rewrite (filter_new_not_null rname L D ids F HD).
Qed.

Lemma emap_null (L : list json) :
  JNull ∈ L →
  emap (λ p, prop p "id") L
  = inl (TypeError "Cannot read properties of null (reading 'id')").
Proof.
  induction L as [|q L IH]; [by intros ?%elem_of_nil|].
  intros [<-|Hin]%elem_of_cons; [done|].
  simpl. destruct q; try (rewrite (IH Hin); reflexivity).
Qed.

Lemma emap_id_error (L : list json) (e : js_error) :
  emap (λ p, prop p "id") L = inl e →
  e = TypeError "Cannot read properties of null (reading 'id')".
Proof.
  induction L as [|q L IH]; [done|]. simpl.
  destruct (prop q "id") as [e'|i] eqn:E; simpl.
  - destruct q; try discriminate. simpl in E. by intros [= <-]; injection E as <-.
  - destruct (emap _ L) as [e'|ids]; simpl; [|done]. intros [= <-]. by apply IH.
Qed.

Lemma efilter_null (ids : list jsval) (D : list json) :
  JNull ∈ D →
  efilter (λ p, i ←! prop p "id"; inr (negb (set_has ids i))) D
  = inl (TypeError "Cannot read properties of null (reading 'id')").
Proof.
  induction D as [|q D IH]; [by intros ?%elem_of_nil|].
  intros [<-|Hin]%elem_of_cons; [done|].
  simpl. destruct q as [| | | | |fields]; simpl; rewrite ?(IH Hin); try reflexivity.
Qed.

(** X9. An entry that is [null], among the local entries or among the
    downloaded ones, makes the merge throw the TypeError of reading [id]
    from [null]. *)
Theorem merge_append_null_entry (lname rname : string) (L D : list json) :
  JNull ∈ L ∨ JNull ∈ D →
  merge_append lname rname (JArr L) (Some (JArr D))
  = inl (TypeError "Cannot read properties of null (reading 'id')").
Proof.
  unfold merge_append. simpl. intros [HL|HD].
  - by rewrite emap_null.
  - destruct (emap _ L) as [e|ids] eqn:E; simpl.
    + by rewrite (emap_id_error L e E).
    + by rewrite efilter_null.
Qed.

(** X10. When a local entry has no [id], the merge drops every
    downloaded entry that has no [id]: the entries added after the local
    ones all have one. *)
Theorem merge_append_drops_downloads_without_id
    (lname rname : string) (L D : list json) (q : json) :
  JNull ∉ L → JNull ∉ D →
  q ∈ L → prop q "id" = inr None →
  ∃ fresh, merge_append lname rname (JArr L) (Some (JArr D)) = inr (JArr (L ++ fresh))
           ∧ ∀ p, p ∈ fresh → prop p "id" ≠ inr None.
Proof.
  intros HL HD Hq Hid. eexists. split; [by apply merge_append_not_null|].
  intros p [_ Hp]%list_elem_of_In%filter_In Hnone.
  apply negb_true_iff in Hp. apply not_true_iff_false in Hp. apply Hp.
  apply existsb_exists. exists q. split; [by apply list_elem_of_In|].
  unfold same_id. by rewrite Hnone, Hid.
Qed.

Lemma filter_all {A} (f : A → bool) (l : list A) :
  Forall (λ x, f x = true) l → List.filter f l = l.
Proof. induction 1 as [|x l Hx _ IH]; simpl; [done|]. by rewrite Hx, IH. Qed.

(** X11. Merging into no local entries gives the downloaded entries as
    they are, entries with equal ids included; merging no downloaded
    entries gives the local entries as they are. *)
Theorem merge_append_empty_side (lname rname : string) (L D : list json) :
  (JNull ∉ D → merge_append lname rname (JArr []) (Some (JArr D)) = inr (JArr D))
  ∧ (JNull ∉ L → merge_append lname rname (JArr L) (Some (JArr [])) = inr (JArr L)).
Proof.
  split; intros H.
  - rewrite merge_append_not_null by (done || apply not_elem_of_nil).
    simpl. rewrite filter_all; [done|]. by apply Forall_forall.
  - rewrite merge_append_not_null by (done || apply not_elem_of_nil).
    simpl. by rewrite app_nil_r.
Qed.

Lemma append_spec_records (L D : list json) :
  Forall is_record L → Forall is_record D → Forall is_record (append_spec L D).
Proof.
  intros HL HD. unfold append_spec. apply Forall_app. split; [done|].
  apply Forall_forall. intros p [_ Hp]%list_elem_of_filter.
  by apply (proj1 (Forall_forall _ _) HD).
Qed.

Lemma append_spec_again (L D : list json) :
  append_spec (append_spec L D) D = append_spec L D.
Proof.
  unfold append_spec at 1.
  assert (∀ X, X ⊆ D →
            filter (λ p, record_id p ∉ record_id <$> append_spec L D) X = []) as E.
  { induction X as [|p X IH]; intros Hsub; [done|].
    rewrite filter_cons, IH by (intros x Hx; apply Hsub; by right). rewrite decide_False; [done|].
    intros Hn. apply Hn. unfold append_spec. rewrite fmap_app. apply elem_of_app.
    destruct (decide (record_id p ∈ record_id <$> L)) as [Hin|Hout]; [by left|].
    right. apply list_elem_of_fmap. exists p. split; [done|].
    apply list_elem_of_filter. split; [done|]. apply Hsub. by left. }
  by rewrite E, app_nil_r.
Qed.

(** X12. Merging the same download a second time adds nothing: for
    records with a string id, merging [D] into the merge of [D] into [L]
    gives the merge of [D] into [L]. *)
Theorem merge_append_twice (lname rname : string) (L D : list json) :
  Forall is_record L → Forall is_record D →
  ∃ M, merge_append lname rname (JArr L) (Some (JArr D)) = inr (JArr M)
       ∧ merge_append lname rname (JArr M) (Some (JArr D)) = inr (JArr M).
Proof.
  intros HL HD. exists (append_spec L D). split; [by apply merge_append_records|].
  rewrite merge_append_records by auto using append_spec_records.
  by rewrite append_spec_again.
Qed.

End Merging.

(** ** What a handler reaches *)

Section Reach.

Context `{platform : Platform}.

Lemma showMessage_same_at k type txt :
  String.prefix "temp_webdav_message_" k = false →
  keeps (same_at k) (showMessage type txt).
Proof.
  intros Hk. unfold showMessage.
  walk fail ltac:(first [ reflexivity
                        | unfold same_at; cbn;
                          by rewrite lookup_insert_ne by by apply temp_key_neq ]).
Qed.

Ltac same_at_eff Hne :=
  first [ reflexivity
        | unfold same_at; cbn;
          rewrite lookup_insert_ne by first [by apply temp_key_neq | congruence];
          reflexivity ].

(** X4. A push writes to local storage only under its status key and
    under toast keys: the value under every other key, the two collections
    among them, is the one before the push, whatever the server answers. *)
Theorem push_leaves_other_keys env w k :
  k ≠ "webdav_sync_status" →
  String.prefix "temp_webdav_message_" k = false →
  storage (invoke env handleSyncToWebDAV w).1 !! k = storage w !! k.
Proof.
  intros Hne Hk. unfold invoke. generalize (comp w). intros c. revert env w.
  change (keeps (same_at k) (handleSyncToWebDAV c)).
  unfold handleSyncToWebDAV.
  walk ltac:(first [by apply showMessage_same_at | progress unfold startSyncStatusPolling])
       ltac:(same_at_eff Hne).
Qed.

Ltac sent_only_eff :=
  first [ by (exists []; split; [reflexivity|constructor])
        | eexists [_]; split; [reflexivity|];
          apply Forall_cons; split; [|constructor];
          split; [apply prefix_app | cbn; by repeat constructor] ].

Lemma showMessage_sent_only Q type txt : keeps (sent_only Q) (showMessage type txt).
Proof. unfold showMessage. walk fail sent_only_eff. Qed.

(** X6. Every request that a push or a pull sends goes to a URL that
    starts with the server URL of the component, less a slash at its end,
    and carries the Basic authorization header made of the component's user
    name and password. *)
Theorem requests_go_to_the_server env w op :
  ∃ new : list request,
    requests (trace (invoke env (handler op) w).1) = (new ++ requests (trace w))%list
    ∧ Forall (to_server (comp w)) new.
Proof.
  unfold invoke. generalize (comp w). intros c. revert env w.
  change (keeps (sent_only (to_server c)) (handler op c)).
  destruct op as [|m]; simpl; unfold handleSyncToWebDAV, syncFromWebDAV, fullPath, response_json.
  all: walk ltac:(first [by apply showMessage_sent_only | progress unfold startSyncStatusPolling])
       ltac:(sent_only_eff).
Qed.

End Reach.

Section Handlers.

Context `{platform : Platform}.

#[local] Arguments merge_append : simpl never.
#[local] Arguments stored_or_empty : simpl never.
#[local] Arguments read_keys : simpl never.
#[local] Arguments dir_of : simpl never.
#[local] Arguments strip_trailing_slash : simpl never.
#[local] Arguments truthy : simpl never.
#[local] Arguments strict_eq_str : simpl never.
#[local] Arguments isArray : simpl never.

(** ** The poller *)

(** X13. One tick of the poller never throws, writes nothing to local
    storage and sends no request. It stops polling (the interval is
    cleared, [syncCheckIntervalRef] and the sync identifier are reset)
    when the value under the watched key is missing or falsy, when its
    [id] is not the watched identifier, and when its status is success or
    error; with the watched identifier and any other status it changes
    neither the component nor the timers. *)
Theorem poll_tick_outcomes env w syncId key :
  let res := run env (poll_sync_status syncId key) w in
  let stopped :=
    currentSyncId (comp res.1) = None
    ∧ syncCheckIntervalRef (comp res.1) = None
    ∧ timers res.1 = remove_timer (syncCheckIntervalRef (comp w)) (timers w) in
  res.2 = inr ()
  ∧ storage res.1 = storage w
  ∧ requests (trace res.1) = requests (trace w)
  ∧ (truthy (storage w !! key) = false → stopped)
  ∧ (∀ v i, storage w !! key = Some v → truthy (Some v) = true →
            prop v "id" = inr i → strict_eq_str i syncId = false → stopped)
  ∧ (∀ v st, storage w !! key = Some v → truthy (Some v) = true →
             prop v "id" = inr (Some (JStr syncId)) → prop v "status" = inr st →
             if strict_eq_str st "success" || strict_eq_str st "error" then stopped
             else comp res.1 = comp w ∧ timers res.1 = timers w).
Proof.
  cbv zeta. destruct w as [s c tm nt tr]. unfold poll_sync_status, stop_polling. cbn.
  rewrite read_keys_lookup by (by repeat constructor).
  assert (∀ v, truthy (Some v) = true →
               ∃ i st, prop v "id" = inr i ∧ prop v "status" = inr st)
    as Hprops by (intros []; try done; by do 2 eexists).
  split; [|split; [|split; [|split; [|split]]]].
  1-3: destruct (s !! key) as [v|]; cbn; [|done];
       destruct (truthy (Some v)) eqn:Et; cbn; [|done];
       destruct (Hprops v Et) as (i & st & -> & ->); cbn;
       destruct (strict_eq_str i syncId); cbn; [|done];
       by destruct (strict_eq_str st "success" || strict_eq_str st "error").
  - destruct (s !! key) as [v|]; cbn; [|done]. by intros ->.
  - intros v i -> Et Ei Es. cbn. rewrite Et. cbn. rewrite Ei. cbn. by rewrite Es.
  - intros v st -> Et Ei Est. cbn. rewrite Et. cbn. rewrite Ei. cbn.
    assert (strict_eq_str (Some (JStr syncId)) syncId = true) as ->
      by apply String.eqb_refl.
    cbn. rewrite Est. cbn.
    by destruct (strict_eq_str st "success" || strict_eq_str st "error").
Qed.

(** ** What a failed pull leaves behind *)



(** ** Without a network *)


(** ** After a pull *)




End Handlers.

Section Upload.

Context `{platform : Platform}.

(** The two collections live under keys the sync engine does not use for
    its own records. *)
Hypothesis prompts_key : collection_key BROWSER_STORAGE_KEY = true.
Hypothesis categories_key : collection_key CATEGORIES_STORAGE_KEY = true.

#[local] Arguments stored_or_empty : simpl never.
#[local] Arguments read_keys : simpl never.
#[local] Arguments dir_of : simpl never.
#[local] Arguments strip_trailing_slash : simpl never.

(** ** What a push sends *)


End Upload.

Section Timers.

Context `{platform : Platform}.

(** ** Timers *)

#[local] Arguments Nat.eqb : simpl nomatch.

Lemma elem_of_remove_timer (h : option nat) (tms : list (nat * timer)) id tm :
  (id, tm) ∈ remove_timer h tms ↔ (id, tm) ∈ tms ∧ h ≠ Some id.
Proof.
  unfold remove_timer. destruct h as [i|]; [|split; [by split|by intros []]].
  rewrite list_elem_of_In, filter_In, <- list_elem_of_In. simpl.
  rewrite negb_true_iff, Nat.eqb_neq. split; intros [? ?]; split; congruence.
Qed.

Lemma remove_timer_sublist (h : option nat) (tms : list (nat * timer)) :
  remove_timer h tms `sublist_of` tms.
Proof.
  unfold remove_timer. destruct h as [i|]; [|done].
  induction tms as [|p tms IH]; simpl; [done|].
  destruct (negb _); by constructor.
Qed.

Ltac in_order_clauses := split; [|split; [|split; [|split]]].

Lemma in_order_remove tms next mref iref h :
  in_order tms next mref iref → in_order (remove_timer h tms) next mref iref.
Proof.
  intros (Hnd & Hlt & Hm & Hi & Hk). in_order_clauses; auto.
  - eapply sublist_NoDup; [exact Hnd|]. apply fmap_sublist, remove_timer_sublist.
  - apply Forall_forall. intros [i tm] [Hin _]%elem_of_remove_timer.
    by apply (proj1 (Forall_forall _ _) Hlt).
  - intros id tm [Hin _]%elem_of_remove_timer. by apply Hk.
Qed.

Lemma in_order_fresh tms next mref iref tm :
  in_order tms next mref iref →
  Forall (λ p, p.1 < S next) ((next, tm) :: tms) ∧ NoDup ((next, tm) :: tms).*1.
Proof.
  intros (Hnd & Hlt & _). split.
  - constructor; [simpl; lia|]. eapply Forall_impl; [exact Hlt|]. simpl. lia.
  - simpl. apply NoDup_cons. split; [|done].
    intros ([i tm'] & E & Hp)%list_elem_of_fmap. simpl in E. subst i.
    apply (proj1 (Forall_forall _ _) Hlt) in Hp. simpl in Hp. lia.
Qed.

Lemma in_order_below tms next mref iref id tm :
  in_order tms next mref iref → (id, tm) ∈ tms → id ≠ next.
Proof.
  intros (_ & Hlt & _) Hin. apply (proj1 (Forall_forall _ _) Hlt) in Hin.
  simpl in Hin. lia.
Qed.

(** A new message: the timeout of the message before is cleared and a new
    one is armed and held. *)
Lemma in_order_message tms next mref iref ms :
  in_order tms next mref iref →
  in_order ((next, Timeout ClearTestMessage ms) :: remove_timer mref tms)
           (S next) (Some next) iref.
Proof.
  intros H. pose proof (in_order_remove _ _ _ _ mref H) as H'.
  destruct (in_order_fresh _ _ _ _ (Timeout ClearTestMessage ms) H') as [Hlt' Hnd'].
  pose proof (λ id tm, in_order_below _ _ _ _ id tm H) as Hbelow.
  destruct H as (Hnd & Hlt & Hm & Hi & Hk).
  in_order_clauses; try done.
  - intros id [= <-]. lia.
  - intros id E. specialize (Hi id E). lia.
  - intros id tm [[= -> ->]|[Hin Hne]%elem_of_remove_timer]%elem_of_cons.
    + split; [done|]. simpl. split; [done|]. intros E. specialize (Hi _ E). lia.
    + destruct (Hk _ _ Hin) as [Hk1 Hk2]. split; [|done]. split.
      * intros Hmsg. by apply Hk1 in Hmsg.
      * intros [= ->]. by destruct (Hbelow _ _ Hin).
Qed.

(** A new poller: the interval before is cleared and a new one is armed
    and held. *)
Lemma in_order_interval tms next mref iref cb ms :
  in_order tms next mref iref →
  in_order ((next, Interval cb ms) :: remove_timer iref tms) (S next) mref (Some next).
Proof.
  intros H. pose proof (in_order_remove _ _ _ _ iref H) as H'.
  destruct (in_order_fresh _ _ _ _ (Interval cb ms) H') as [Hlt' Hnd'].
  pose proof (λ id tm, in_order_below _ _ _ _ id tm H) as Hbelow.
  destruct H as (Hnd & Hlt & Hm & Hi & Hk).
  in_order_clauses; try done.
  - intros id E. specialize (Hm id E). lia.
  - intros id [= <-]. lia.
  - intros id tm [[= -> ->]|[Hin Hne]%elem_of_remove_timer]%elem_of_cons.
    + split; [|done]. simpl. split; [done|]. intros E. specialize (Hm _ E). lia.
    + destruct (Hk _ _ Hin) as [Hk1 Hk2]. split; [done|]. split.
      * intros Hint. by apply Hk2 in Hint.
      * intros [= ->]. by destruct (Hbelow _ _ Hin).
Qed.

(** A timeout that neither clears the message nor polls. *)
Lemma in_order_timeout tms next mref iref tm :
  is_message_timeout tm = false → is_interval tm = false →
  in_order tms next mref iref →
  in_order ((next, tm) :: tms) (S next) mref iref.
Proof.
  intros Hnm Hni H.
  destruct (in_order_fresh _ _ _ _ tm H) as [Hlt' Hnd'].
  destruct H as (Hnd & Hlt & Hm & Hi & Hk).
  in_order_clauses; try done.
  - intros id E. specialize (Hm id E). lia.
  - intros id E. specialize (Hi id E). lia.
  - intros id tm' [[= -> ->]|Hin]%elem_of_cons; [|by apply Hk].
    rewrite Hnm, Hni. split; (split; [done|]); intros E.
    + specialize (Hm _ E). lia.
    + specialize (Hi _ E). lia.
Qed.

(** The poller stops: its interval is cleared and no longer held. *)
Lemma in_order_stop tms next mref iref :
  in_order tms next mref iref → in_order (remove_timer iref tms) next mref None.
Proof.
  intros H. pose proof (in_order_remove _ _ _ _ iref H) as (Hnd & Hlt & Hm & _ & Hk').
  destruct H as (_ & _ & _ & _ & Hk).
  in_order_clauses; try done.
  intros id tm Hin. split; [by apply Hk'|].
  apply elem_of_remove_timer in Hin as [Hin Hne]. split; [|done].
  intros Hint. destruct (Hk _ _ Hin) as [_ Hk2]. by apply Hk2 in Hint.
Qed.

(** The message expires: its timeout is gone and no longer held. *)
Lemma in_order_expire tms next mref iref :
  in_order tms next mref iref → in_order (remove_timer mref tms) next None iref.
Proof.
  intros H. pose proof (in_order_remove _ _ _ _ mref H) as (Hnd & Hlt & _ & Hi & Hk').
  destruct H as (_ & _ & _ & _ & Hk).
  in_order_clauses; try done.
  intros id tm Hin. split; [|by apply Hk'].
  apply elem_of_remove_timer in Hin as [Hin Hne]. split; [|done].
  intros Hmsg. destruct (Hk _ _ Hin) as [Hk1 _]. by apply Hk1 in Hmsg.
Qed.

(** ** The component keeps its timers in order *)

#[local] Instance stays_in_order_preorder : PreOrder stays_in_order.
Proof. split; [intros w H; exact H|]. intros x y z H1 H2 H. by apply H2, H1. Qed.

Ltac in_order_eff :=
  idtac;
  let H := fresh in
  intros H;
  match goal with w : world |- _ => destruct w as [? [] ? ? ?] end;
  first [ exact H
        | apply in_order_timeout; [reflexivity|reflexivity|exact H]
        | apply in_order_remove; exact H ].

Lemma showMessage_in_order type txt : keeps stays_in_order (showMessage type txt).
Proof.
  intros env [s [] tm nt tr] H. unfold timers_in_order in *.
  destruct type; cbn in *.
  1,2: apply in_order_timeout; [done..|].
  all: by apply in_order_message.
Qed.

Lemma startSyncStatusPolling_in_order syncId key :
  keeps stays_in_order (startSyncStatusPolling syncId key).
Proof.
  intros env [s [] tm nt tr] H. unfold timers_in_order in *. cbn in *.
  by apply in_order_interval.
Qed.

Lemma stop_polling_in_order : keeps stays_in_order stop_polling.
Proof.
  intros env [s [] tm nt tr] H. unfold timers_in_order in *. cbn in *.
  by apply in_order_stop.
Qed.

Ltac in_order_sub :=
  idtac;
  lazymatch goal with
  | |- keeps _ (showMessage _ _) => apply showMessage_in_order
  | |- keeps _ (startSyncStatusPolling _ _) => apply startSyncStatusPolling_in_order
  | |- keeps _ stop_polling => apply stop_polling_in_order
  end.

Lemma handler_in_order op c : keeps stays_in_order (handler op c).
Proof.
  destruct op as [|m]; simpl; unfold handleSyncToWebDAV, syncFromWebDAV, response_json.
  all: walk in_order_sub in_order_eff.
Qed.

Lemma poll_sync_status_in_order syncId key :
  keeps stays_in_order (poll_sync_status syncId key).
Proof. unfold poll_sync_status. walk in_order_sub in_order_eff. Qed.

(** X16. The component keeps its timers in order. When the handles are
    distinct and below the next handle, an armed timer clears the message
    exactly when it is the one [messageTimeoutRef] holds and is an interval
    exactly when it is the one [syncCheckIntervalRef] holds, then the same
    is true after a push or a pull, whatever the server answers, after a
    tick of the poller, after the expiry of the message and after the
    cleanup of the component. *)
Theorem timers_stay_in_order env w :
  timers_in_order w →
  (∀ op, timers_in_order (invoke env (handler op) w).1)
  ∧ timers_in_order (fire_interval env w)
  ∧ timers_in_order (fire_message_timeout env w)
  ∧ timers_in_order (run env cleanup w).1.
Proof.
  intros H. split; [|split; [|split]].
  - intros op. by apply handler_in_order.
  - unfold fire_interval. destruct (syncCheckIntervalRef (comp w)) as [id|]; [|done].
    destruct (find_timer id (timers w)) as [[|[] ?]|]; try done.
    by apply poll_sync_status_in_order.
  - unfold fire_message_timeout.
    destruct (messageTimeoutRef (comp w)) as [id|] eqn:E; [|done].
    destruct (find_timer id (timers w)) as [[[] ?|]|]; try done.
    destruct w as [s [] tm nt tr]. unfold timers_in_order in *. cbn in *. subst.
    by apply in_order_expire.
  - destruct w as [s [] tm nt tr]. unfold timers_in_order in *. cbn in *.
    by do 2 apply in_order_remove.
Qed.

(** X17. When the component is removed with its timers in order, its
    cleanup cancels the timeout of the message and the poller and nothing
    else: the timers armed afterwards are the ones armed before that are
    neither of the two, so a pending removal of a toast record or a pending
    reload still fires. *)
Theorem cleanup_cancels_message_and_poller env w :
  timers_in_order w →
  ∀ id tm, (id, tm) ∈ timers (run env cleanup w).1
           ↔ (id, tm) ∈ timers w
             ∧ is_message_timeout tm = false ∧ is_interval tm = false.
Proof.
  intros (_ & _ & _ & _ & Hk) id tm. destruct w as [s [] tm' nt tr]. cbn in *.
  rewrite !elem_of_remove_timer. split.
  - intros [[Hin Hm] Hi]. destruct (Hk _ _ Hin) as [Hk1 Hk2]. split; [done|].
    split; apply not_true_iff_false; tauto.
  - intros (Hin & Hm & Hi). destruct (Hk _ _ Hin) as [Hk1 Hk2].
    repeat split; try done; intros E.
    + apply Hk1 in E. congruence.
    + apply Hk2 in E. congruence.
Qed.

Lemma fire_message_timeout_clears env w1 id ms :
  messageTimeoutRef (comp w1) = Some id →
  find_timer id (timers w1) = Some (Timeout ClearTestMessage ms) →
  let w2 := fire_message_timeout env w1 in
  testMessage (comp w2) = None
  ∧ messageTimeoutRef (comp w2) = None
  ∧ find_timer id (timers w2) = None
  ∧ storage w2 = storage w1.
Proof.
  intros Href Hfind. cbv zeta. unfold fire_message_timeout. rewrite Href, Hfind.
  destruct w1 as [s [] tm nt tr]. cbn. repeat split. apply find_timer_removed.
Qed.

(** X15. A message is on display until the timeout that [showMessage]
    arms fires: [showMessage] puts the message on display and holds the
    handle of a 5000 ms timeout in [messageTimeoutRef]; when that timeout
    fires nothing is on display, the handle is reset and the timeout is no
    longer armed. The expiry does not touch local storage. *)
Theorem message_expires env w type txt :
  let w1 := (run env (showMessage type txt) w).1 in
  let w2 := fire_message_timeout env w1 in
  testMessage (comp w1) = Some (type, txt)
  ∧ messageTimeoutRef (comp w1) = Some (next_timer w)
  ∧ find_timer (next_timer w) (timers w1) = Some (Timeout ClearTestMessage 5000)
  ∧ testMessage (comp w2) = None
  ∧ messageTimeoutRef (comp w2) = None
  ∧ find_timer (next_timer w) (timers w2) = None
  ∧ storage w2 = storage w1.
Proof.
  assert (∀ n, Nat.eqb (S n) n = false) as Hsn
    by (intros n; apply Nat.eqb_neq, Nat.neq_succ_diag_l).
  cbv zeta. set (w1 := (run env (showMessage type txt) w).1).
  assert (testMessage (comp w1) = Some (type, txt)) as H1.
  { subst w1. destruct w as [s [] tm nt tr]. by destruct type. }
  assert (messageTimeoutRef (comp w1) = Some (next_timer w)) as H2.
  { subst w1. destruct w as [s [] tm nt tr]. by destruct type. }
  assert (find_timer (next_timer w) (timers w1) = Some (Timeout ClearTestMessage 5000))
    as H3.
  { subst w1. destruct w as [s [] tm nt tr]. destruct type; cbn.
    all: by rewrite ?Hsn, Nat.eqb_refl. }
  do 3 (split; [done|]). by apply (fire_message_timeout_clears env w1 _ 5000%N).
Qed.

End Timers.

(** ** The settings form *)

Lemma page_run_call penv {A} (p : prog A) (s : page) :
  page_run penv (call p) s
  = Some (set_engine s (run (engine_env penv) p (engine s)).1,
          (run (engine_env penv) p (engine s)).2).
Proof.
  revert s. induction p as [a|e|X e k IH]; intros s; simpl.
  - by destruct s.
  - by destruct s.
  - by rewrite IH.
Qed.

Lemma page_run_bind penv {A B} (p : page_prog A) (f : A → page_prog B) (s : page) :
  page_run penv (page_bind p f) s
  = match page_run penv p s with
    | Some (s1, inr a) => page_run penv (f a) s1
    | Some (s1, inl e) => Some (s1, inl e)
    | None => None
    end.
Proof.
  revert s. induction p as [a|e|X e k IH]; intros s; simpl; [done..|].
  destruct (do_page_eff penv e s) as [[s1 x]|]; [apply IH|done].
Qed.

Lemma page_run_try_catch penv {A} (p : page_prog A) (h : js_error → page_prog A)
    (s : page) :
  page_run penv (page_try_catch p h) s
  = match page_run penv p s with
    | Some (s1, inr a) => Some (s1, inr a)
    | Some (s1, inl e) => page_run penv (h e) s1
    | None => None
    end.
Proof.
  revert s. induction p as [a|e|X e k IH]; intros s; simpl; [done..|].
  destruct (do_page_eff penv e s) as [[s1 x]|]; [apply IH|done].
Qed.

Section Settings.

Context `{platform : Platform}.

#[local] Arguments read_keys : simpl never.
#[local] Arguments remove_keys : simpl never.
#[local] Arguments truthy : simpl never.

Lemma stored_text_js_or (area : gmap string json) (k d : string) :
  area !! k = None ∨ (∃ x, area !! k = Some (JStr x)) →
  js_or (area !! k) (JStr d) = JStr (str_or (stored_text area k) d).
Proof.
  unfold stored_text, str_or, js_or. intros [->|[x ->]]; [done|].
  change (truthy (Some (JStr x))) with (str_truthy x). by destruct (str_truthy x).
Qed.

Lemma str_or_empty (x : string) : str_or x "" = x.
Proof. unfold str_or, str_truthy. by destruct x. Qed.

Lemma stored_flag_nullish (area : gmap string json) (k : string) :
  area !! k = None ∨ (∃ b, area !! k = Some (JBool b)) →
  nullish (area !! k) (JBool false) = JBool (stored_flag area k).
Proof. unfold stored_flag. by intros [->|[b ->]]. Qed.

Lemma loadSettings_loaded penv s :
  (∀ keys, rejects penv (SyncGet keys) = None) →
  settings_typed (sync_area s) →
  ∃ s', page_run penv loadSettings s = Some (s', inr ())
        ∧ serverUrl (comp (engine s')) = stored_text (sync_area s) "webdavServerUrl"
        ∧ username (comp (engine s')) = stored_text (sync_area s) "webdavUsername"
        ∧ password (comp (engine s')) = stored_text (sync_area s) "webdavPassword"
        ∧ syncPath (comp (engine s'))
          = str_or (stored_text (sync_area s) "webdavSyncPath") "/quick-prompt/prompts.json"
        ∧ isAutoSyncEnabled s' = stored_flag (sync_area s) "webdavAutoSyncEnabled"
        ∧ isLoading s' = false
        ∧ sync_area s' = sync_area s
        ∧ storage (engine s') = storage (engine s).
Proof.
  intros Hget [Htext Hflag]. destruct s as [[st c tm nt tr] area l a].
  unfold loadSettings. cbn. rewrite Hget. cbn.
  rewrite !read_keys_lookup by (by repeat constructor).
  rewrite !stored_text_js_or by (apply Htext; by repeat constructor).
  rewrite stored_flag_nullish by done. cbn.
  rewrite !str_or_empty. eexists. repeat split.
Qed.

Lemma testWebDAVConnection_world env w url user pass :
  (run env (testWebDAVConnection url user pass) w).1
  = log w (EvFetch (propfind_request url user pass)
             (net env (trace w) (propfind_request url user pass))).
Proof.
  unfold testWebDAVConnection. fold (propfind_request url user pass). cbn.
  destruct (net env (trace w) _) as [e|r]; cbn; [done|].
  destruct (ok r || (status r =? 207)%N); cbn; [done|].
  by destruct (status r =? 401)%N.
Qed.

(** X20. When the synced storage area answers and holds strings and a
    boolean under the keys of the form, [loadSettings] ends without an
    error with the form no longer loading; the server URL, the user name
    and the password are the stored strings, the empty string for a key
    that is not stored; the sync path is the stored one, and
    [/quick-prompt/prompts.json] when none or the empty string is stored;
    the switch shows the stored boolean, off when none is stored. Both
    storage areas are as before. *)
Theorem loadSettings_restores_saved_settings penv s :
  (∀ keys, rejects penv (SyncGet keys) = None) →
  settings_typed (sync_area s) →
  ∃ s', page_run penv loadSettings s = Some (s', inr ())
        ∧ serverUrl (comp (engine s')) = stored_text (sync_area s) "webdavServerUrl"
        ∧ username (comp (engine s')) = stored_text (sync_area s) "webdavUsername"
        ∧ password (comp (engine s')) = stored_text (sync_area s) "webdavPassword"
        ∧ syncPath (comp (engine s'))
          = str_or (stored_text (sync_area s) "webdavSyncPath") "/quick-prompt/prompts.json"
        ∧ isAutoSyncEnabled s' = stored_flag (sync_area s) "webdavAutoSyncEnabled"
        ∧ isLoading s' = false
        ∧ sync_area s' = sync_area s
        ∧ storage (engine s') = storage (engine s).
Proof.
  intros Hget [Htext Hflag]. destruct s as [[st c tm nt tr] area l a].
  unfold loadSettings. cbn. rewrite Hget. cbn.
  rewrite !read_keys_lookup by (by repeat constructor).
  rewrite !stored_text_js_or by (apply Htext; by repeat constructor).
  rewrite stored_flag_nullish by done. cbn.
  rewrite !str_or_empty. eexists. repeat split.
Qed.

(** The four settings the form saves. *)
Lemma handleSubmit_saved penv s r :
  let c := comp (engine s) in
  let rq := propfind_request (serverUrl c) (username c) (password c) in
  configured c = true →
  net (engine_env penv) (trace (engine s)) rq = inr r →
  ok r || (status r =? 207)%N = true →
  (∀ items, rejects penv (SyncSet items) = None) →
  ∃ s', page_invoke penv handleSubmit s = Some (s', inr ())
        ∧ sync_area s'
          = <["webdavSyncPath" := JStr (syncPath c)]>
              (<["webdavPassword" := JStr (password c)]>
                 (<["webdavUsername" := JStr (username c)]>
                    (<["webdavServerUrl" := JStr (serverUrl c)]> (sync_area s))))
        ∧ testMessage (comp (engine s')) = Some (MsgSuccess, t "connectionSuccessWebDAVSaved")
        ∧ requests (trace (engine s')) = rq :: requests (trace (engine s))
        ∧ serverUrl (comp (engine s')) = serverUrl c
        ∧ username (comp (engine s')) = username c
        ∧ password (comp (engine s')) = password c
        ∧ syncPath (comp (engine s')) = syncPath c.
Proof.
  intros c rq Hc Hnet Hok Hset. unfold page_invoke, handleSubmit. fold c. rewrite Hc.
  cbn [negb]. rewrite page_run_try_catch, page_run_bind, page_run_call.
  rewrite run_testWebDAVConnection, testWebDAVConnection_world. fold rq.
  cbn [fst snd]. rewrite Hnet, Hok. cbn [success].
  rewrite page_run_bind. cbn -[showMessage]. rewrite Hset. cbn -[showMessage].
  rewrite page_run_call. cbn -[showMessage].
  set (w1 := log (engine s) (EvFetch rq (inr r))).
  destruct (showMessage_quiet (engine_env penv) w1 MsgSuccess
              (t "connectionSuccessWebDAVSaved")) as (H1 & H2 & _ & H4 & _).
  cbv zeta in *. rewrite H1. eexists. split; [reflexivity|].
  cbn [engine sync_area set_engine set_sync_area]. split; [done|]. split; [done|].
  split; [by rewrite H4|].
  subst w1 c. destruct s as [[st [] tm nt tr] area l a]. by cbn.
Qed.

(** X22. Submitting the form with the three fields filled in, a server
    that answers the PROPFIND with a 2xx status or 207 and a synced storage
    area that accepts the write: one request is sent, the four settings are
    stored under their keys, server URL, user name, password and sync path
    as they stand in the form, and the success message is shown. *)
Theorem handleSubmit_saves_after_successful_test penv s r :
  let c := comp (engine s) in
  let rq := propfind_request (serverUrl c) (username c) (password c) in
  configured c = true →
  net (engine_env penv) (trace (engine s)) rq = inr r →
  ok r || (status r =? 207)%N = true →
  (∀ items, rejects penv (SyncSet items) = None) →
  ∃ s', page_invoke penv handleSubmit s = Some (s', inr ())
        ∧ sync_area s'
          = <["webdavSyncPath" := JStr (syncPath c)]>
              (<["webdavPassword" := JStr (password c)]>
                 (<["webdavUsername" := JStr (username c)]>
                    (<["webdavServerUrl" := JStr (serverUrl c)]> (sync_area s))))
        ∧ testMessage (comp (engine s')) = Some (MsgSuccess, t "connectionSuccessWebDAVSaved")
        ∧ requests (trace (engine s')) = rq :: requests (trace (engine s)).
Proof.
  intros c rq Hc Hnet Hok Hset.
  destruct (handleSubmit_saved penv s r Hc Hnet Hok Hset) as (s' & H1 & H2 & H3 & H4 & _).
  by exists s'.
Qed.

(** X21. When the synced storage area rejects the read, [loadSettings]
    ends without an error, leaves every field of the form as it was and
    still ends the loading state. *)
Theorem loadSettings_rejected_keeps_form penv s e :
  (∀ keys, rejects penv (SyncGet keys) = Some e) →
  page_run penv loadSettings s = Some (set_isLoading s false, inr ()).
Proof.
  intros Hget. unfold loadSettings. cbn. rewrite Hget. by destruct s.
Qed.

(** X23. Submitting the form always ends without an error. The synced
    storage area keeps its content and an error message is shown in three
    cases: a field among server URL, user name and password is empty (no
    request is sent); the connectivity test does not succeed; the test
    succeeds and the area rejects the write, where the message shown is the
    one of a failed test. *)
Theorem handleSubmit_saves_nothing_without_successful_test penv s :
  let c := comp (engine s) in
  let rq := propfind_request (serverUrl c) (username c) (password c) in
  let answer := net (engine_env penv) (trace (engine s)) rq in
  ∃ s', page_invoke penv handleSubmit s = Some (s', inr ())
    ∧ (configured c = false →
         sync_area s' = sync_area s
         ∧ requests (trace (engine s')) = requests (trace (engine s))
         ∧ testMessage (comp (engine s')) = Some (MsgError, t "fillWebDAVSettings"))
    ∧ (configured c = true →
       (∀ r, answer = inr r → ok r || (status r =? 207)%N = false) →
         sync_area s' = sync_area s
         ∧ ∃ msg, testMessage (comp (engine s')) = Some (MsgError, msg))
    ∧ (∀ e, configured c = true →
       (∃ r, answer = inr r ∧ ok r || (status r =? 207)%N = true) →
       (∀ items, rejects penv (SyncSet items) = Some e) →
         sync_area s' = sync_area s
         ∧ testMessage (comp (engine s')) = Some (MsgError, t "testConnectionError")).
Proof.
  intros c rq answer. unfold page_invoke, handleSubmit. fold c.
  destruct (configured c) eqn:Hc; cbn [negb].
  - rewrite page_run_try_catch, page_run_bind, page_run_call.
    rewrite run_testWebDAVConnection, testWebDAVConnection_world. fold rq. fold answer.
    cbn [fst snd].
    set (w1 := log (engine s) (EvFetch rq answer)).
    assert (∀ txt, ∃ s', page_run penv (call (showMessage MsgError txt)) (set_engine s w1)
                         = Some (s', inr ())
                         ∧ sync_area s' = sync_area s
                         ∧ testMessage (comp (engine s')) = Some (MsgError, txt)) as Hshow.
    { intros txt. rewrite page_run_call.
      destruct (showMessage_quiet (engine_env penv) w1 MsgError txt) as (H1 & H2 & _).
      cbv zeta in *. cbn [engine set_engine]. rewrite H1. eexists. by repeat split. }
    destruct answer as [e|r] eqn:Ea.
    + cbn [success error]. destruct (Hshow (str_or (default "" (Some (str_or (message e)
                  (t "testConnectionError")))) (t "testConnectionError")))
        as (s' & E & Ha & Hm).
      rewrite E. exists s'. split; [done|]. split; [done|]. split; [eauto|].
      intros e' _ [r [? _]]. done.
    + destruct (ok r || (status r =? 207)%N) eqn:Hok.
      * cbn [success]. rewrite page_run_bind. cbn -[showMessage].
        destruct (rejects penv (SyncSet _)) as [e|] eqn:Hrej; cbn -[showMessage].
        -- destruct (Hshow (t "testConnectionError")) as (s' & E & Ha & Hm).
           rewrite E. exists s'. split; [reflexivity|]. split; [by intros [=]|]. split.
           ++ intros _ H. rewrite (H r eq_refl) in Hok. discriminate.
           ++ intros ? _ _ _. exact (conj Ha Hm).
        -- rewrite page_run_call. cbn -[showMessage].
           pose proof (λ w, proj1 (showMessage_quiet (engine_env penv) w MsgSuccess
                                     (t "connectionSuccessWebDAVSaved"))) as H1.
           cbv zeta in H1. rewrite H1. eexists.
           split; [reflexivity|]. split; [by intros [=]|]. split.
           ++ intros _ H. rewrite (H r eq_refl) in Hok. discriminate.
           ++ intros e _ _ H. rewrite H in Hrej. discriminate.
      * assert (∃ txt, (if (status r =? 401)%N
                        then ConnectionResult false (Some (t "webdavAuthFailed"))
                        else ConnectionResult false
                               (Some (t "webdavConnectionFailed" +:+ ": " +:+
                                      digits (status r))))
                       = ConnectionResult false (Some txt)) as [txt ->]
          by (destruct (status r =? 401)%N; eauto).
        cbn [success error].
        destruct (Hshow (str_or (default "" (Some txt)) (t "testConnectionError")))
          as (s' & E & Ha & Hm).
        rewrite E. exists s'. split; [done|]. split; [done|]. split; [eauto|].
        intros e _ [r' [[= <-] Hok']]. congruence.
  - rewrite page_run_call.
    destruct (showMessage_quiet (engine_env penv) (engine s) MsgError
                (t "fillWebDAVSettings")) as (H1 & H2 & _ & H4 & _).
    cbv zeta in *. rewrite H1. eexists. split; [reflexivity|].
    cbn [engine sync_area set_engine]. by repeat split.
Qed.

Lemma settings_typed_saved (area : gmap string json) (u n p sp : string) :
  settings_typed area →
  settings_typed
    (<["webdavSyncPath" := JStr sp]>
       (<["webdavPassword" := JStr p]>
          (<["webdavUsername" := JStr n]> (<["webdavServerUrl" := JStr u]> area)))).
Proof.
  intros [Htext Hflag]. split.
  - intros k Hk. right.
    repeat (apply elem_of_cons in Hk as [->|Hk]);
      [| | | |by apply elem_of_nil in Hk].
    all: repeat first [ rewrite lookup_insert_eq | rewrite lookup_insert_ne by done ];
      by eexists.
  - by rewrite !lookup_insert_ne by done.
Qed.

(** X24. Round trip of the settings. After a submit that saves, loading
    the settings gives back the server URL, the user name and the password
    of the form; the sync path comes back as saved unless it was empty,
    which comes back as [/quick-prompt/prompts.json]; the switch is what
    was stored before, the submit not saving it. *)
Theorem saved_settings_load_back penv s r :
  let c := comp (engine s) in
  configured c = true →
  net (engine_env penv) (trace (engine s))
      (propfind_request (serverUrl c) (username c) (password c)) = inr r →
  ok r || (status r =? 207)%N = true →
  (∀ call, rejects penv call = None) →
  settings_typed (sync_area s) →
  ∃ s1 s2,
    page_invoke penv handleSubmit s = Some (s1, inr ())
    ∧ page_run penv loadSettings s1 = Some (s2, inr ())
    ∧ serverUrl (comp (engine s2)) = serverUrl c
    ∧ username (comp (engine s2)) = username c
    ∧ password (comp (engine s2)) = password c
    ∧ syncPath (comp (engine s2)) = str_or (syncPath c) "/quick-prompt/prompts.json"
    ∧ isAutoSyncEnabled s2 = stored_flag (sync_area s) "webdavAutoSyncEnabled".
Proof.
  intros c Hc Hnet Hok Hacc Htyped.
  destruct (handleSubmit_saved penv s r Hc Hnet Hok (λ items, Hacc _))
    as (s1 & E1 & Harea & _).
  fold c in Harea.
  destruct (loadSettings_loaded penv s1 (λ keys, Hacc _)) as (s2 & E2 & H).
  { rewrite Harea. by apply settings_typed_saved. }
  exists s1, s2. split; [done|]. split; [done|].
  destruct H as (H1 & H2 & H3 & H4 & H5 & _).
  rewrite H1, H2, H3, H4, H5, Harea. unfold stored_text, stored_flag.
  repeat first [ rewrite lookup_insert_eq | rewrite lookup_insert_ne by done ].
  done.
Qed.

(** X25. Toggling the switch always shows the new position. Loading the
    settings afterwards shows that position when the synced storage area
    accepted the write, and the position stored before when it rejected
    the write: the rejection is not shown. *)
Theorem handleAutoSyncToggle_then_loadSettings penv s enabled :
  settings_typed (sync_area s) →
  (∀ keys, rejects penv (SyncGet keys) = None) →
  ∃ s1 s2,
    page_run penv (handleAutoSyncToggle enabled) s = Some (s1, inr ())
    ∧ isAutoSyncEnabled s1 = enabled
    ∧ page_run penv loadSettings s1 = Some (s2, inr ())
    ∧ isAutoSyncEnabled s2
      = match rejects penv (SyncSet [("webdavAutoSyncEnabled", Some (JBool enabled))]) with
        | None => enabled
        | Some _ => stored_flag (sync_area s) "webdavAutoSyncEnabled"
        end.
Proof.
  intros Htyped Hget. unfold handleAutoSyncToggle, saveAutoSyncEnabled. cbn.
  destruct (rejects penv (SyncSet _)) as [e|] eqn:Hrej; cbn.
  - destruct (loadSettings_loaded penv (set_isAutoSyncEnabled s enabled) Hget Htyped)
      as (s2 & E2 & _ & _ & _ & _ & H & _).
    eexists _, s2. by repeat split.
  - set (s1 := set_sync_area _ _).
    destruct (loadSettings_loaded penv s1 Hget) as (s2 & E2 & _ & _ & _ & _ & H & _).
    { destruct Htyped as [Htext Hflag]. split.
      - intros k Hk. subst s1. cbn. rewrite lookup_insert_ne; [by apply Htext|].
        intros <-. repeat (apply elem_of_cons in Hk as [?|Hk]); try done.
        by apply elem_of_nil in Hk.
      - right. exists enabled. subst s1. cbn. by rewrite lookup_insert_eq. }
    exists s1, s2. repeat split; try done.
    rewrite H. subst s1. unfold stored_flag. cbn. by rewrite lookup_insert_eq.
Qed.

Lemma remove_keys_lookup (keys : list string) (m : gmap string json) (k : string) :
  remove_keys keys m !! k = if decide (k ∈ keys) then None else m !! k.
Proof.
  unfold remove_keys. induction keys as [|k' keys IH]; simpl; [done|].
  destruct (decide (k = k')) as [->|Hne].
  - rewrite lookup_delete_eq. rewrite decide_True; [done|by left].
  - rewrite lookup_delete_ne by done. rewrite IH.
    destruct (decide (k ∈ keys)) as [Hin|Hout].
    + rewrite decide_True; [done|by right].
    + rewrite decide_False; [done|]. by intros [?|?]%elem_of_cons.
Qed.

Lemma object_keys_elem (m : gmap string json) (k : string) :
  k ∈ object_keys m ↔ is_Some (m !! k).
Proof.
  unfold object_keys. rewrite list_elem_of_fmap. split.
  - intros ([k' v] & -> & Hin%elem_of_map_to_list). by eexists.
  - intros [v Hv]. exists (k, v). split; [done|]. by apply elem_of_map_to_list.
Qed.

(** X19. [clearTemporaryMessages] ends without an error and removes from
    local storage the key [webdav_sync_status], the key
    [webdav_from_sync_status] and every key that starts with
    [temp_webdav_message_]; every other key keeps its value, and the
    component, its timers and the synced storage area are untouched. *)
Theorem clearTemporaryMessages_removes_temporary_keys penv s :
  ∃ s', page_run penv clearTemporaryMessages s = Some (s', inr ())
        ∧ (∀ k, storage (engine s') !! k
                = if temporary_key k then None else storage (engine s) !! k)
        ∧ comp (engine s') = comp (engine s)
        ∧ timers (engine s') = timers (engine s)
        ∧ trace (engine s') = trace (engine s)
        ∧ sync_area s' = sync_area s.
Proof.
  destruct s as [[st c tm nt tr] area l a]. unfold clearTemporaryMessages. cbn.
  assert (∀ k, k ∈ List.filter temporary_key (object_keys st)
               ↔ temporary_key k = true ∧ is_Some (st !! k)) as Hkeys.
  { intros k. rewrite list_elem_of_In, filter_In, <- list_elem_of_In, object_keys_elem.
    tauto. }
  destruct (List.filter temporary_key (object_keys st)) as [|k0 keys]; cbn.
  - eexists. split; [reflexivity|]. cbn. repeat split. intros k.
    destruct (temporary_key k) eqn:Ek; [|done].
    destruct (st !! k) as [v|] eqn:Ev; [|done].
    assert (k ∈ @nil string) as Hin by (apply Hkeys; eauto).
    by apply elem_of_nil in Hin.
  - eexists. split; [reflexivity|]. cbn. repeat split. intros k.
    rewrite remove_keys_lookup.
    destruct (decide (k ∈ k0 :: keys)) as [Hin|Hout].
    + apply Hkeys in Hin as [-> _]. done.
    + destruct (temporary_key k) eqn:Ek; [|done].
      destruct (st !! k) as [v|] eqn:Ev; [|done].
      destruct Hout. apply Hkeys. eauto.
Qed.


End Settings.

(** * Instances *)

#[local] Existing Instance sample_platform.


Lemma unconfigured_sync_is_refused_witness :
  let env := server (inr (Response 207 "")) (inr (Response 201 "")) (inr (Response 404 "")) in
  let w := opened (credentials "https://dav.example.com/" "alice" "") local_a_b in
  password (comp w) = ""
  ∧ requests (trace (invoke env (handler Push) w).1) = []
  ∧ storage (invoke env (handler Push) w).1 !! "webdav_sync_status" = None.
Proof.
  intros env w. split; [reflexivity|].
  destruct (unconfigured_sync_is_refused env w Push (or_intror (or_intror eq_refl)))
    as (_ & _ & H3 & _ & H5).
  split; [exact H3 | exact (H5 Push)].
Defined.

(** The spec's example of append mode: local [a; b], downloaded [b; c]. *)
Lemma append_keeps_local_then_new_witness :
  let env := server (inr (Response 207 "")) (inr (Response 201 ""))
               (inr (Response 200 "{prompts:[b,c]}")) in
  let w := opened alice local_a_b in
  (ready (comp w)
   ∧ answers env (download_request (comp w)) (inr (Response 200 "{prompts:[b,c]}"))
   ∧ JSON_parse "{prompts:[b,c]}" = Some doc_b_c
   ∧ prop doc_b_c "prompts" = inr (Some (JArr [entry "b" "remote b"; entry "c" "remote c"]))
   ∧ categories_or_empty doc_b_c = JArr []
   ∧ stored_or_empty (storage w) "userPrompts"
     = JArr [entry "a" "local a"; entry "b" "local b"]
   ∧ stored_or_empty (storage w) "userCategories" = JArr [])
  ∧ storage (invoke env (syncFromWebDAV append) w).1 !! "userPrompts"
    = Some (JArr [entry "a" "local a"; entry "b" "local b"; entry "c" "remote c"])
  ∧ storage (invoke env (syncFromWebDAV append) w).1 !! "userCategories"
    = Some (JArr []).
Proof.
  intros env w.
  assert (Forall is_record [entry "a" "local a"; entry "b" "local b"]) as RL
    by (repeat constructor; by eexists).
  assert (Forall is_record [entry "b" "remote b"; entry "c" "remote c"]) as RD
    by (repeat constructor; by eexists).
  split; [repeat split; intros; reflexivity|].
  exact (append_keeps_local_then_new (platform := sample_platform) eq_refl eq_refl
              ltac:(discriminate) env w
           (Response 200 "{prompts:[b,c]}") doc_b_c
           [entry "b" "remote b"; entry "c" "remote c"] []
           [entry "a" "local a"; entry "b" "local b"] []
           (conj eq_refl eq_refl) (fun _ => eq_refl) eq_refl eq_refl eq_refl eq_refl
           eq_refl eq_refl RL RD ltac:(constructor) ltac:(constructor)).
Defined.

Lemma replace_overwrites_collections_witness :
  let env := server (inr (Response 207 "")) (inr (Response 201 ""))
               (inr (Response 200 "{prompts:[b],categories:null}")) in
  let w := opened alice local_a_b in
  (ready (comp w)
   ∧ answers env (download_request (comp w))
       (inr (Response 200 "{prompts:[b],categories:null}"))
   ∧ JSON_parse "{prompts:[b],categories:null}" = Some doc_null_categories
   ∧ prop doc_null_categories "prompts" = inr (Some (JArr [entry "b" "remote b"]))
   ∧ prop doc_null_categories "categories" = inr (Some JNull)
   ∧ truthy (Some JNull) = false)
  ∧ storage (invoke env (syncFromWebDAV replace) w).1 !! "userPrompts"
    = Some (JArr [entry "b" "remote b"])
  ∧ storage (invoke env (syncFromWebDAV replace) w).1 !! "userCategories"
    = Some (JArr []).
Proof.
  intros env w.
  split; [repeat split; intros; reflexivity|].
  destruct (replace_overwrites_collections (platform := sample_platform) eq_refl eq_refl
              ltac:(discriminate) env w
              (Response 200 "{prompts:[b],categories:null}") doc_null_categories
              [entry "b" "remote b"]
              (conj eq_refl eq_refl) (fun _ => eq_refl) eq_refl eq_refl eq_refl)
    as (H1 & _ & H3).
  split; [exact H1 | exact (H3 (Some JNull) eq_refl eq_refl)].
Defined.

(** C4 as stated fails on a document whose [categories] is [null] or [0]:
    the document does not omit the field, yet the stored categories are the
    empty sequence and not the document's value. *)
Lemma replace_null_categories_counterexample :
  let pull body :=
    (invoke (server (inr (Response 207 "")) (inr (Response 201 ""))
               (inr (Response 200 body)))
            (syncFromWebDAV replace) (opened alice local_a_b)).1 in
  (JSON_parse "{prompts:[b],categories:null}" = Some doc_null_categories
   ∧ prop doc_null_categories "prompts" = inr (Some (JArr [entry "b" "remote b"]))
   ∧ status_at "webdav_from_sync_status" (pull "{prompts:[b],categories:null}")
     = Some (JStr "success")
   ∧ categories_or_empty doc_null_categories = JNull
   ∧ storage (pull "{prompts:[b],categories:null}") !! "userCategories" = Some (JArr [])
   ∧ storage (pull "{prompts:[b],categories:null}") !! "userCategories"
     ≠ Some (categories_or_empty doc_null_categories))
  ∧ (JSON_parse "{prompts:[b],categories:0}" = Some doc_zero_categories
     ∧ prop doc_zero_categories "prompts" = inr (Some (JArr [entry "b" "remote b"]))
     ∧ status_at "webdav_from_sync_status" (pull "{prompts:[b],categories:0}")
       = Some (JStr "success")
     ∧ categories_or_empty doc_zero_categories = JNum 0
     ∧ storage (pull "{prompts:[b],categories:0}") !! "userCategories" = Some (JArr [])
     ∧ storage (pull "{prompts:[b],categories:0}") !! "userCategories"
       ≠ Some (categories_or_empty doc_zero_categories)).
Proof.
  intros pull. repeat split; try (vm_compute; reflexivity).
  all: vm_compute; discriminate.
Qed.

Lemma replace_stores_categories_unchecked_witness :
  let env := server (inr (Response 207 "")) (inr (Response 201 ""))
               (inr (Response 200 "{prompts:[b],categories:'all'}")) in
  let w := opened alice local_a_b in
  (ready (comp w)
   ∧ answers env (download_request (comp w))
       (inr (Response 200 "{prompts:[b],categories:'all'}"))
   ∧ JSON_parse "{prompts:[b],categories:'all'}" = Some doc_text_categories
   ∧ prop doc_text_categories "prompts" = inr (Some (JArr [entry "b" "remote b"]))
   ∧ prop doc_text_categories "categories" = inr (Some (JStr "all"))
   ∧ truthy (Some (JStr "all")) = true
   ∧ isArray (Some (JStr "all")) = false)
  ∧ (invoke env (syncFromWebDAV replace) w).2 = inr ()
  ∧ status_at "webdav_from_sync_status" (invoke env (syncFromWebDAV replace) w).1
    = Some (JStr "success")
  ∧ storage (invoke env (syncFromWebDAV replace) w).1 !! "userCategories"
    = Some (JStr "all").
Proof.
  intros env w.
  split; [repeat split; intros; reflexivity|].
  destruct (replace_stores_categories_unchecked (platform := sample_platform) eq_refl eq_refl
              ltac:(discriminate) env w
              (Response 200 "{prompts:[b],categories:'all'}") doc_text_categories
              [entry "b" "remote b"] (JStr "all")
              (conj eq_refl eq_refl) (fun _ => eq_refl) eq_refl eq_refl eq_refl eq_refl
              eq_refl eq_refl)
    as (H1 & _ & H3 & H4).
  exact (conj H1 (conj H3 H4)).
Defined.

Lemma append_keeps_ids_unique_witness :
  let env := server (inr (Response 207 "")) (inr (Response 201 ""))
               (inr (Response 200 "{prompts:[b,c]}")) in
  let w := opened alice local_a_b in
  (NoDup (record_id <$> [entry "a" "local a"; entry "b" "local b"])
   ∧ NoDup (record_id <$> [entry "b" "remote b"; entry "c" "remote c"]))
  ∧ ∃ M Mc,
      storage (invoke env (syncFromWebDAV append) w).1 !! "userPrompts" = Some (JArr M)
      ∧ storage (invoke env (syncFromWebDAV append) w).1 !! "userCategories"
        = Some (JArr Mc)
      ∧ NoDup (record_id <$> M) ∧ NoDup (record_id <$> Mc).
Proof.
  intros env w.
  assert (Forall is_record [entry "a" "local a"; entry "b" "local b"]) as RL
    by (repeat constructor; by eexists).
  assert (Forall is_record [entry "b" "remote b"; entry "c" "remote c"]) as RD
    by (repeat constructor; by eexists).
  assert (NoDup (record_id <$> [entry "a" "local a"; entry "b" "local b"])) as NL
    by (apply (bool_decide_unpack _); vm_compute; exact I).
  assert (NoDup (record_id <$> [entry "b" "remote b"; entry "c" "remote c"])) as ND
    by (apply (bool_decide_unpack _); vm_compute; exact I).
  split; [by split|].
  exact (append_keeps_ids_unique (platform := sample_platform) eq_refl eq_refl
              ltac:(discriminate) env w
           (Response 200 "{prompts:[b,c]}") doc_b_c
           [entry "b" "remote b"; entry "c" "remote c"] []
           [entry "a" "local a"; entry "b" "local b"] []
           (conj eq_refl eq_refl) (fun _ => eq_refl) eq_refl eq_refl eq_refl eq_refl
           eq_refl eq_refl RL RD ltac:(constructor) ltac:(constructor)
           NL ND NoDup_nil_2 NoDup_nil_2).
Defined.

(** C8 as stated fails when two local entries share an id: the downloaded
    document has unique ids, the merge keeps both local entries. *)
Lemma append_duplicate_local_ids_counterexample :
  let env := server (inr (Response 207 "")) (inr (Response 201 ""))
               (inr (Response 200 "{prompts:[b,c]}")) in
  let w := opened alice local_a_a in
  let w' := (invoke env (syncFromWebDAV append) w).1 in
  JSON_parse "{prompts:[b,c]}" = Some doc_b_c
  ∧ prop doc_b_c "prompts" = inr (Some (JArr [entry "b" "remote b"; entry "c" "remote c"]))
  ∧ categories_or_empty doc_b_c = JArr []
  ∧ NoDup (record_id <$> [entry "b" "remote b"; entry "c" "remote c"])
  ∧ storage w' !! "userPrompts"
    = Some (JArr [entry "a" "first"; entry "a" "second";
                  entry "b" "remote b"; entry "c" "remote c"])
  ∧ ¬ NoDup (record_id <$> [entry "a" "first"; entry "a" "second";
                            entry "b" "remote b"; entry "c" "remote c"]).
Proof.
  intros env w w'. repeat split; try (vm_compute; reflexivity).
  - apply (bool_decide_unpack _). vm_compute. exact I.
  - apply (bool_decide_unpack _). vm_compute. exact I.
Qed.



(** * Where the code departs from the specification *)

(** C2. The guard reads the sync identifier, and the identifier is only
    set by [startSyncStatusPolling], after the terminal record has been
    written. A push that has written its in-progress record and waits for
    storage holds no identifier; a second push started then is not
    refused: it sends its own MKCOL and PUT and writes two more records
    under the same status key. *)
Theorem second_push_runs_while_first_in_progress :
  let env := server (inr (Response 207 "")) (inr (Response 201 ""))
               (inr (Response 404 "")) in
  let w0 := opened alice local_a_b in
  let first := steps env 8 (handleSyncToWebDAV alice) w0 in
  let w1 := first.1 in
  let w2 := (invoke env handleSyncToWebDAV w1).1 in
  is_suspended first.2 = true
  ∧ in_progress "webdav_sync_status" w1
  ∧ currentSyncId (comp w1) = None
  ∧ requests (trace w1) = []
  ∧ method <$> requests (trace w2) = ["PUT"; "MKCOL"]
  ∧ length (written "webdav_sync_status" (trace w1)) = 1
  ∧ length (written "webdav_sync_status" (trace w2)) = 3
  ∧ testMessage (comp w2) = Some (MsgSuccess, "syncToWebDAVSuccess").
Proof. vm_compute. repeat split; reflexivity. Qed.

(** C3. A push whose upload is answered 500, and a pull whose download is
    answered 500, show the error and leave the status record of their
    direction as it was written at the start: in progress. The only
    record with status error goes under a [temp_webdav_message_] key. *)
Theorem failed_sync_leaves_in_progress_record :
  let env := server (inr (Response 207 "")) (inr (Response 500 ""))
               (inr (Response 500 "")) in
  let w := opened alice local_a_b in
  let pushed := (invoke env handleSyncToWebDAV w).1 in
  let pulled := (invoke env (syncFromWebDAV replace) w).1 in
  testMessage (comp pushed) = Some (MsgError, "syncToWebDAVFailed: HTTP 500")
  ∧ status_at "webdav_sync_status" pushed = Some (JStr "in_progress")
  ∧ length (written "webdav_sync_status" (trace pushed)) = 1
  ∧ status_at "temp_webdav_message_1007" pushed = Some (JStr "error")
  ∧ method <$> requests (trace pushed) = ["PUT"; "MKCOL"]
  ∧ testMessage (comp pulled) = Some (MsgError, "syncFromWebDAVFailed: HTTP 500")
  ∧ status_at "webdav_from_sync_status" pulled = Some (JStr "in_progress")
  ∧ length (written "webdav_from_sync_status" (trace pulled)) = 1
  ∧ method <$> requests (trace pulled) = ["GET"].
Proof. vm_compute. repeat split; reflexivity. Qed.

(** C5. A download answered ok with the JSON document [null] is not
    reported as an invalid data format: reading [prompts] from [null]
    throws, and the message of that TypeError is what the pull shows. *)
Theorem null_document_is_not_reported_as_invalid_format :
  let env := server (inr (Response 207 "")) (inr (Response 201 ""))
               (inr (Response 200 "null")) in
  let w := opened alice local_a_b in
  let w' := (invoke env (syncFromWebDAV replace) w).1 in
  JSON_parse "null" = Some JNull
  ∧ testMessage (comp w')
    = Some (MsgError,
            "syncFromWebDAVFailed: Cannot read properties of null (reading 'prompts')")
  ∧ testMessage (comp w')
    ≠ Some (MsgError, "syncFromWebDAVFailed: " +:+ t "invalidWebDAVDataFormat").
Proof. vm_compute. repeat split; [reflexivity..|discriminate]. Qed.

(** ** Instances of the further properties *)

(** The default sync path: the directory [/quick-prompt] is created. *)
Lemma dir_of_last_slash_witness :
  lastIndexOf_slash "prompts.json" 0 = None
  ∧ dir_of "/quick-prompt/prompts.json" = "/quick-prompt"
  ∧ dir_of "prompts.json" = "".
Proof.
  split; [reflexivity|]. exact (dir_of_last_slash "/quick-prompt" "prompts.json" eq_refl).
Defined.


Lemma push_leaves_other_keys_witness :
  let env := server (inr (Response 207 "")) (inr (Response 201 "")) (inr (Response 404 "")) in
  let w := opened alice local_a_b in
  String.prefix "temp_webdav_message_" "userPrompts" = false
  ∧ storage (invoke env handleSyncToWebDAV w).1 !! "userPrompts"
    = Some (JArr [entry "a" "local a"; entry "b" "local b"]).
Proof.
  intros env w. split; [reflexivity|].
  exact (push_leaves_other_keys (platform := sample_platform) env w "userPrompts"
           ltac:(discriminate) eq_refl).
Defined.



Ltac no_null :=
  let H := fresh in
  intros H; repeat (apply elem_of_cons in H as [H|H]; [discriminate H|]);
  by apply elem_of_nil in H.

(** A local entry with the number 1 as id keeps the downloaded entry with
    the string ["1"] as id out of nothing: the two ids differ. The
    downloaded entry without an id is dropped, a local entry having
    none. *)
Lemma merge_append_keeps_local_first_witness :
  let L := [numbered 1; untitled "draft"] in
  let D := [entry "1" "one"; untitled "remote draft"; numbered 1] in
  ((JNull ∉ L) ∧ (JNull ∉ D))
  ∧ merge_append "localPrompts" "syncData.prompts" (JArr L) (Some (JArr D))
    = inr (JArr [numbered 1; untitled "draft"; entry "1" "one"]).
Proof.
  intros L D.
  assert (JNull ∉ L) as HL by no_null.
  assert (JNull ∉ D) as HD by no_null.
  split; [by split|].
  exact (merge_append_keeps_local_first "localPrompts" "syncData.prompts" L D HL HD).
Defined.

Lemma merge_append_null_entry_witness :
  JNull ∈ [entry "b" "remote b"; JNull]
  ∧ merge_append "localPrompts" "syncData.prompts" (JArr [entry "a" "local a"])
      (Some (JArr [entry "b" "remote b"; JNull]))
    = inl (TypeError "Cannot read properties of null (reading 'id')").
Proof.
  assert (JNull ∈ [entry "b" "remote b"; JNull]) as H by (by repeat constructor).
  split; [exact H|].
  exact (merge_append_null_entry "localPrompts" "syncData.prompts"
           [entry "a" "local a"] [entry "b" "remote b"; JNull] (or_intror H)).
Defined.

Lemma merge_append_drops_downloads_without_id_witness :
  let L := [entry "a" "local a"; untitled "draft"] in
  let D := [untitled "remote draft"; entry "b" "remote b"] in
  (untitled "draft" ∈ L ∧ prop (untitled "draft") "id" = inr None)
  ∧ ∃ fresh,
      merge_append "localPrompts" "syncData.prompts" (JArr L) (Some (JArr D))
      = inr (JArr (L ++ fresh))
      ∧ ∀ p, p ∈ fresh → prop p "id" ≠ inr None.
Proof.
  intros L D.
  assert (JNull ∉ L) as HL by no_null.
  assert (JNull ∉ D) as HD by no_null.
  assert (untitled "draft" ∈ L) as Hq by (by repeat constructor).
  split; [by split|].
  exact (merge_append_drops_downloads_without_id "localPrompts" "syncData.prompts"
           L D (untitled "draft") HL HD Hq eq_refl).
Defined.

Lemma merge_append_twice_witness :
  let L := [entry "a" "local a"; entry "b" "local b"] in
  let D := [entry "b" "remote b"; entry "c" "remote c"] in
  ∃ M, merge_append "localPrompts" "syncData.prompts" (JArr L) (Some (JArr D))
       = inr (JArr M)
       ∧ merge_append "localPrompts" "syncData.prompts" (JArr M) (Some (JArr D))
         = inr (JArr M).
Proof.
  intros L D.
  assert (Forall is_record L) as HL by (repeat constructor; by eexists).
  assert (Forall is_record D) as HD by (repeat constructor; by eexists).
  exact (merge_append_twice "localPrompts" "syncData.prompts" L D HL HD).
Defined.


Lemma armed_in_order : timers_in_order armed.
Proof.
  split; [|split; [|split; [|split]]].
  - apply (bool_decide_unpack _). vm_compute. exact I.
  - repeat constructor; simpl; lia.
  - intros id [= <-]. simpl. lia.
  - intros id [= <-]. simpl. lia.
  - intros id tm Hin.
    repeat (apply elem_of_cons in Hin as [[= -> ->]|Hin]);
      [| | |by apply elem_of_nil in Hin].
    all: split; split; by intros E.
Defined.

Lemma timers_stay_in_order_witness :
  let env := server (inr (Response 207 "")) (inr (Response 201 "")) (inr (Response 404 "")) in
  timers_in_order armed
  ∧ timers_in_order (invoke env (handler (Pull append)) armed).1
  ∧ timers_in_order (fire_interval env armed)
  ∧ timers_in_order (fire_message_timeout env armed).
Proof.
  intros env. split; [exact armed_in_order|].
  destruct (timers_stay_in_order (platform := sample_platform) env armed armed_in_order)
    as (H1 & H2 & H3 & _).
  exact (conj (H1 (Pull append)) (conj H2 H3)).
Defined.

Lemma cleanup_cancels_message_and_poller_witness :
  let env := server (inr (Response 207 "")) (inr (Response 201 "")) (inr (Response 404 "")) in
  timers_in_order armed
  ∧ timers (run env cleanup armed).1
    = [(2, Timeout (RemoveStorageKey "temp_webdav_message_1000") 5000)]
  ∧ ∀ id tm, (id, tm) ∈ timers (run env cleanup armed).1
             ↔ (id, tm) ∈ timers armed
               ∧ is_message_timeout tm = false ∧ is_interval tm = false.
Proof.
  intros env. split; [exact armed_in_order|]. split; [reflexivity|].
  exact (cleanup_cancels_message_and_poller env armed armed_in_order).
Defined.


Lemma saved_settings_typed : settings_typed saved_settings.
Proof.
  split.
  - intros k Hk.
    repeat (apply elem_of_cons in Hk as [->|Hk]);
      [right; by eexists|right; by eexists|right; by eexists|by left|].
    by apply elem_of_nil in Hk.
  - right. by exists true.
Defined.

(** The sync path was never saved: the default path is loaded. *)
Lemma loadSettings_restores_saved_settings_witness :
  let penv := accepting storing_server in
  let s := loading (credentials "" "" "") saved_settings in
  settings_typed saved_settings
  ∧ ∃ s', page_run penv loadSettings s = Some (s', inr ())
          ∧ serverUrl (comp (engine s')) = "https://dav.example.com/"
          ∧ username (comp (engine s')) = "alice"
          ∧ password (comp (engine s')) = "secret"
          ∧ syncPath (comp (engine s')) = "/quick-prompt/prompts.json"
          ∧ isAutoSyncEnabled s' = true
          ∧ isLoading s' = false
          ∧ sync_area s' = saved_settings
          ∧ storage (engine s') = ∅.
Proof.
  intros penv s. split; [exact saved_settings_typed|].
  exact (loadSettings_restores_saved_settings penv s
           (fun _ => eq_refl) saved_settings_typed).
Defined.

Lemma loadSettings_rejected_keeps_form_witness :
  let penv := refusing storing_server (Error "storage is not available") in
  let s := loading alice saved_settings in
  page_run penv loadSettings s = Some (Page (opened alice ∅) saved_settings false false, inr ()).
Proof.
  intros penv s.
  exact (loadSettings_rejected_keeps_form penv s
           (Error "storage is not available") (fun _ => eq_refl)).
Defined.

Lemma handleSubmit_saves_after_successful_test_witness :
  let penv := accepting (server (inr (Response 207 "")) (inr (Response 201 ""))
                           (inr (Response 404 ""))) in
  let s := loading alice ∅ in
  configured alice = true
  ∧ ∃ s', page_invoke penv handleSubmit s = Some (s', inr ())
          ∧ sync_area s'
            = <["webdavSyncPath" := JStr "/quick-prompt/prompts.json"]>
                (<["webdavPassword" := JStr "secret"]>
                   (<["webdavUsername" := JStr "alice"]>
                      (<["webdavServerUrl" := JStr "https://dav.example.com/"]> ∅)))
          ∧ testMessage (comp (engine s')) = Some (MsgSuccess, "connectionSuccessWebDAVSaved")
          ∧ requests (trace (engine s'))
            = [propfind_request "https://dav.example.com/" "alice" "secret"].
Proof.
  intros penv s. split; [reflexivity|].
  exact (handleSubmit_saves_after_successful_test (platform := sample_platform) penv s
           (Response 207 "") eq_refl eq_refl eq_refl (fun _ => eq_refl)).
Defined.

Lemma saved_settings_load_back_witness :
  let penv := accepting (server (inr (Response 207 "")) (inr (Response 201 ""))
                           (inr (Response 404 ""))) in
  let c := Component "https://dav.example.com/" "alice" "secret" "" None None None None in
  let s := loading c saved_settings in
  (configured c = true ∧ settings_typed saved_settings)
  ∧ ∃ s1 s2,
      page_invoke penv handleSubmit s = Some (s1, inr ())
      ∧ page_run penv loadSettings s1 = Some (s2, inr ())
      ∧ serverUrl (comp (engine s2)) = "https://dav.example.com/"
      ∧ username (comp (engine s2)) = "alice"
      ∧ password (comp (engine s2)) = "secret"
      ∧ syncPath (comp (engine s2)) = "/quick-prompt/prompts.json"
      ∧ isAutoSyncEnabled s2 = true.
Proof.
  intros penv c s. split; [split; [reflexivity|exact saved_settings_typed]|].
  exact (saved_settings_load_back (platform := sample_platform) penv s (Response 207 "")
           eq_refl eq_refl eq_refl (fun _ => eq_refl) saved_settings_typed).
Defined.

(** The switch is turned off while the synced storage area rejects the
    call: the form shows it off, and loading the settings again shows it
    on, as stored. *)
Lemma handleAutoSyncToggle_then_loadSettings_witness :
  let penv :=
    PageEnvironment storing_server
      (fun call => match call with
                   | SyncSet _ => Some (Error "quota exceeded")
                   | SyncGet _ => None
                   end) in
  let s := loading alice saved_settings in
  settings_typed saved_settings
  ∧ ∃ s1 s2,
      page_run penv (handleAutoSyncToggle false) s = Some (s1, inr ())
      ∧ isAutoSyncEnabled s1 = false
      ∧ page_run penv loadSettings s1 = Some (s2, inr ())
      ∧ isAutoSyncEnabled s2 = true.
Proof.
  intros penv s. split; [exact saved_settings_typed|].
  exact (handleAutoSyncToggle_then_loadSettings penv s false
           saved_settings_typed (fun _ => eq_refl)).
Defined.
